(** * quick-start-go-otel-metrics-traces: a verification of [main.go]

    The program is an HTTP service with three handlers (a "hello world"
    endpoint that fails half of the time and a toy shopping cart), which
    records one counter, one histogram, one gauge and one observable gauge,
    and opens one span per request.  This development embeds [main.go]
    function by function and proves what the specification says about it,
    then further properties of the handlers, of their interleavings and of
    the calls of [main].

    The embedding:
    - [Int64]: Go's [int64] arithmetic (two's complement, wrapping);
    - the OpenTelemetry and [net/http] values the program manipulates;
    - the process state [World] and the state monad [M] of the handlers;
    - the handlers [helloWorldHandler], [cartAddHandler] and
      [cartRemoveHandler], as in the source;
    - [Race]: the loads and stores of [cartCount] under goroutine
      interleaving;
    - the meter, an interface, and the registry of the specification;
    - [Startup]: [main] and the three [init*] functions, as a computation
      that records its library calls and may exit;
    - [Sampler]: the background loop [collectMachineResourceMetrics], an
      interaction tree.

    The OpenTelemetry SDK is not part of the repository. What is said of
    it (a counter rejects a negative delta, a registry rejects a duplicate,
    a span ends at the time [EndSpan] is called) is taken from the
    specification and marked as such where it is defined. *)

From Stdlib Require Import ZArith List String Ascii Lia Bool QArith.
From Stdlib Require Import DecimalString.
From Stdlib Require DecimalPos DecimalZ.
From stdpp Require Import gmap strings.
From ITree Require Import ITree.
Import ListNotations.

Local Open Scope Z_scope.

(** ** Go's [int64] *)

Module Int64.

Definition min_int : Z := - 2 ^ 63.
Definition max_int : Z := 2 ^ 63 - 1.

(** Reduction of a mathematical integer to its two's-complement
    representative: what Go keeps of a result that overflows. *)
Definition wrap (z : Z) : Z := (z + 2 ^ 63) mod 2 ^ 64 - 2 ^ 63.

Definition add (a b : Z) : Z := wrap (a + b).
Definition sub (a b : Z) : Z := wrap (a - b).

Definition in_range (z : Z) : Prop := min_int <= z <= max_int.

End Int64.

(** ** Values of the libraries the program calls *)

(** [attribute.KeyValue]: the program builds boolean and integer ones. *)
Inductive Value : Type :=
| BoolValue (b : bool)
| Int64Value (z : Z).

Definition KeyValue : Type := (string * Value)%type.

Definition attribute_Bool (k : string) (v : bool) : KeyValue := (k, BoolValue v).
Definition attribute_Int64 (k : string) (v : Z) : KeyValue := (k, Int64Value v).

(** Go's [error] values, as far as the program and the specification
    distinguish them. *)
Inductive error : Type :=
| errorString (msg : string)
| wrapError (msg : string) (cause : error)
| InvalidArgument
| DuplicateInstrumentError (name unit_ : string).

Inductive result (A : Type) : Type :=
| Ok (a : A)
| Err (e : error).
Arguments Ok {A} a.
Arguments Err {A} e.

Definition is_ok {A} (r : result A) : bool :=
  match r with Ok _ => true | Err _ => false end.

(** A span of the trace tree. Timestamps are clock readings in nanoseconds. *)
Record Span : Type := mkSpan {
  span_name : string;
  span_trace : nat;
  span_parent : option nat;
  span_start : Z;
  span_end : option Z;
  span_attrs : list KeyValue
}.

(** [context.Context] as the tracer sees it: the active span, if any. *)
Definition Context : Type := option nat.

(** [http.Request]: the handlers only ask for its context. *)
Record Request : Type := mkRequest { req_Context : Context }.

(** [http.ResponseWriter]: the status line, once written, and the body. *)
Record ResponseWriter : Type := mkResponse {
  rw_status : option Z;
  rw_body : string
}.

Definition http_StatusOK : Z := 200.
Definition http_StatusInternalServerError : Z := 500.

Definition newResponseWriter : ResponseWriter :=
  {| rw_status := None; rw_body := ""%string |}.

(** [w.WriteHeader(code)]: the first status written wins. *)
Definition WriteHeader (w : ResponseWriter) (code : Z) : ResponseWriter :=
  match rw_status w with
  | Some _ => w
  | None => {| rw_status := Some code; rw_body := rw_body w |}
  end.

(** [w.Write(b)]: writes an implicit 200 first when no status was written. *)
Definition Write (w : ResponseWriter) (b : string) : ResponseWriter :=
  let w' := WriteHeader w http_StatusOK in
  {| rw_status := rw_status w'; rw_body := (rw_body w' ++ b)%string |}.

(** [http.Error(w, msg, code)]: the status, then the message and a newline. *)
Definition http_Error (w : ResponseWriter) (msg : string) (code : Z) : ResponseWriter :=
  Write (WriteHeader w code) (msg ++ String (ascii_of_nat 10) "")%string.

(** The [%d] verb of [fmt.Sprintf]. *)
Definition fmt_d (z : Z) : string := NilZero.string_of_int (Z.to_int z).

(** ** The process state *)

(** State of the tracer: every span started so far (a span's identifier is
    its position) and the number of traces opened. *)
Record Recorder : Type := mkRecorder {
  spans : list Span;
  traces : nat
}.

(** The package-level variables of [main.go] that the handlers touch, with
    the state behind the three instruments and the tracer, and the number
    of clock readings and random draws taken so far. *)
Record World : Type := mkWorld {
  cartCount : Z;
  errorCounter : Z;
  latencyHistogram : list Z;
  itemGauge : option Z;
  tracer : Recorder;
  clock_reads : nat;
  rand_draws : nat
}.

(** [var cartCount int64 = 0]; nothing recorded, no span started. *)
Definition initial_world : World :=
  {| cartCount := 0; errorCounter := 0; latencyHistogram := [];
     itemGauge := None; tracer := {| spans := []; traces := 0 |};
     clock_reads := 0; rand_draws := 0 |}.

(** What the handlers read from outside the process: the clock, whose
    [n]-th reading is [now n], and the random source. [rand.Float64]
    returns a multiple of 2^-53 in [0, 1); [rand_Float64 n] is the
    numerator of the [n]-th draw. *)
Record Env : Type := mkEnv {
  now : nat -> Z;
  rand_Float64 : nat -> Z
}.

Definition monotone_clock (env : Env) : Prop :=
  forall i j : nat, (i <= j)%nat -> now env i <= now env j.

(** State monad over [World]. *)
Definition M (A : Type) : Type := World -> A * World.

Definition ret {A} (a : A) : M A := fun w => (a, w).
Definition bind {A B} (m : M A) (k : A -> M B) : M B :=
  fun w => let '(a, w') := m w in k a w'.

Declare Scope go_scope.
Delimit Scope go_scope with go.
Notation "x <- m ;; k" := (bind m (fun x => k))
  (at level 62, m at next level, right associativity) : go_scope.
Notation "m ;;; k" := (bind m (fun _ => k))
  (at level 62, right associativity) : go_scope.
Local Open Scope go_scope.

Definition get_cartCount : M Z := fun w => (cartCount w, w).

Definition set_cartCount (v : Z) : M unit := fun w =>
  (tt, {| cartCount := v; errorCounter := errorCounter w;
          latencyHistogram := latencyHistogram w; itemGauge := itemGauge w;
          tracer := tracer w; clock_reads := clock_reads w;
          rand_draws := rand_draws w |}).

Definition set_tracer (r : Recorder) (w : World) : World :=
  {| cartCount := cartCount w; errorCounter := errorCounter w;
     latencyHistogram := latencyHistogram w; itemGauge := itemGauge w;
     tracer := r; clock_reads := clock_reads w; rand_draws := rand_draws w |}.

(** [time.Now()]: the next reading of the clock. *)
Definition time_Now (env : Env) : M Z := fun w =>
  (now env (clock_reads w),
   {| cartCount := cartCount w; errorCounter := errorCounter w;
      latencyHistogram := latencyHistogram w; itemGauge := itemGauge w;
      tracer := tracer w; clock_reads := S (clock_reads w);
      rand_draws := rand_draws w |}).

(** [rand.Float64() < 0.5]: the draw is k/2^53, so the test is k < 2^52. *)
Definition rand_below_half (env : Env) : M bool := fun w =>
  (rand_Float64 env (rand_draws w) <? 2 ^ 52,
   {| cartCount := cartCount w; errorCounter := errorCounter w;
      latencyHistogram := latencyHistogram w; itemGauge := itemGauge w;
      tracer := tracer w; clock_reads := clock_reads w;
      rand_draws := S (rand_draws w) |}).

(** ** The instruments and the tracer *)

(** Modelled from the spec: [Counter.Add(context, delta)] of the metrics
    SDK, which is not part of the repository: "delta must be >= 0; fails
    with InvalidArgument otherwise", and a failed call "never changes
    stored value". *)
Definition Counter_Add (stored delta : Z) : result Z :=
  if delta <? 0 then Err InvalidArgument else Ok (stored + delta).

(** Modelled from the spec: [Histogram.Record(context, value)] of the
    metrics SDK: the histogram accumulates the recorded values. The values
    here are durations in nanoseconds, all finite. *)
Definition Histogram_Record (h : list Z) (value : Z) : list Z := value :: h.

(** Modelled from the spec: [Gauge.Record(context, value)] of the metrics
    SDK: "Gauges hold last-written value". *)
Definition Gauge_Record (g : option Z) (value : Z) : option Z := Some value.

(** [errorCounter.Add(ctx, delta)]: the Go method returns nothing, so a
    rejected delta leaves the counter as it was. *)
Definition errorCounter_Add (delta : Z) : M unit := fun w =>
  (tt, {| cartCount := cartCount w;
          errorCounter := match Counter_Add (errorCounter w) delta with
                          | Ok v => v
                          | Err _ => errorCounter w
                          end;
          latencyHistogram := latencyHistogram w; itemGauge := itemGauge w;
          tracer := tracer w; clock_reads := clock_reads w;
          rand_draws := rand_draws w |}).

Definition latencyHistogram_Record (value : Z) : M unit := fun w =>
  (tt, {| cartCount := cartCount w; errorCounter := errorCounter w;
          latencyHistogram := Histogram_Record (latencyHistogram w) value;
          itemGauge := itemGauge w;
          tracer := tracer w; clock_reads := clock_reads w;
          rand_draws := rand_draws w |}).

Definition itemGauge_Record (value : Z) : M unit := fun w =>
  (tt, {| cartCount := cartCount w; errorCounter := errorCounter w;
          latencyHistogram := latencyHistogram w;
          itemGauge := Gauge_Record (itemGauge w) value;
          tracer := tracer w; clock_reads := clock_reads w;
          rand_draws := rand_draws w |}).

(** Replace the span at position [id]. *)
Fixpoint update_span (id : nat) (f : Span -> Span) (l : list Span) : list Span :=
  match l, id with
  | [], _ => []
  | s :: l', O => f s :: l'
  | s :: l', S id' => s :: update_span id' f l'
  end.

(** The span active in a context, with its identifier, when there is one. *)
Definition parent_span (parent : Context) (r : Recorder) : option (nat * Span) :=
  match parent with
  | Some p => option_map (pair p) (nth_error (spans r) p)
  | None => None
  end.

(** The span that [StartSpan] opens. *)
Definition new_span (at_ : Z) (parent : Context) (name : string) (r : Recorder) : Span :=
  match parent_span parent r with
  | Some (p, ps) => mkSpan name (span_trace ps) (Some p) at_ None []
  | None => mkSpan name (traces r) None at_ None []
  end.

(** Modelled from the spec: [StartSpan(parentContext, name)] of the
    tracing SDK, which is not part of the repository: "opens a span, links
    it as child of the span (if any) active in parentContext; always
    succeeds". A span without a parent opens a new trace; a child joins the
    trace of its parent. *)
Definition StartSpan (at_ : Z) (parent : Context) (name : string) (r : Recorder)
  : (Context * nat) * Recorder :=
  let id := length (spans r) in
  ((Some id, id),
   {| spans := spans r ++ [new_span at_ parent name r];
      traces := match parent_span parent r with
                | Some _ => traces r
                | None => S (traces r)
                end |}).

(** Modelled from the spec: [SetAttributes(span, key-value pairs)]:
    attributes are appended in order; a no-op on a closed span. *)
Definition SetAttributes (id : nat) (kvs : list KeyValue) (r : Recorder) : Recorder :=
  {| spans := update_span id
       (fun s => match span_end s with
                 | Some _ => s
                 | None => mkSpan (span_name s) (span_trace s) (span_parent s)
                             (span_start s) None (span_attrs s ++ kvs)
                 end) (spans r);
     traces := traces r |}.

(** Modelled from the spec: [EndSpan(span)]: "finalizes end timestamp";
    a second call on the same span changes nothing. *)
Definition EndSpan (at_ : Z) (id : nat) (r : Recorder) : Recorder :=
  {| spans := update_span id
       (fun s => match span_end s with
                 | Some _ => s
                 | None => mkSpan (span_name s) (span_trace s) (span_parent s)
                             (span_start s) (Some at_) (span_attrs s)
                 end) (spans r);
     traces := traces r |}.

(** [tracer.Start(ctx, name)]: the span starts at the current time. *)
Definition tracer_Start (env : Env) (ctx : Context) (name : string) : M (Context * nat) :=
  t <- time_Now env ;;
  fun w => let '(res, r) := StartSpan t ctx name (tracer w) in (res, set_tracer r w).

Definition span_SetAttributes (span : nat) (kvs : list KeyValue) : M unit :=
  fun w => (tt, set_tracer (SetAttributes span kvs (tracer w)) w).

(** [span.End()]: the span ends at the current time. *)
Definition span_End (env : Env) (span : nat) : M unit :=
  t <- time_Now env ;;
  fun w => (tt, set_tracer (EndSpan t span (tracer w)) w).

(** ** The handlers *)

(** [recordLatencyHistogram(start)]: [time.Since(start)] is recorded.
    The source converts the duration to seconds; it is kept here in
    nanoseconds, the unit of the clock. *)
Definition recordLatencyHistogram (env : Env) (start : Z) : M unit :=
  t <- time_Now env ;;
  latencyHistogram_Record (t - start).

(** [helloWorldHandler]. The two deferred calls run when the function
    returns, last deferred first: [recordLatencyHistogram(start)], then
    [span.End()]. *)
Definition helloWorldHandler (env : Env) (w : ResponseWriter) (r : Request)
  : M ResponseWriter :=
  started <- tracer_Start env (req_Context r) "helloWorldHandler" ;;
  let span := snd started in
  start <- time_Now env ;;
  failed <- rand_below_half env ;;
  w' <- (if failed : bool then
           let w1 := http_Error w "Internal Server Error" http_StatusInternalServerError in
           errorCounter_Add 1 ;;;
           span_SetAttributes span
             [attribute_Bool "helloWorldHandler.error" true;
              attribute_Int64 "http.status" http_StatusInternalServerError] ;;;
           ret w1
         else
           span_SetAttributes span
             [attribute_Bool "helloWorldHandler.error" false;
              attribute_Int64 "http.status" http_StatusOK] ;;;
           ret (Write (WriteHeader w http_StatusOK) "Hello, World!")) ;;
  recordLatencyHistogram env start ;;;
  span_End env span ;;;
  ret w'.

(** [cartAddHandler]. Every mention of [cartCount] in the source is a
    read of the package-level variable. *)
Definition cartAddHandler (env : Env) (w : ResponseWriter) (r : Request)
  : M ResponseWriter :=
  c <- get_cartCount ;;
  set_cartCount (Int64.add c 1) ;;;
  c <- get_cartCount ;;
  itemGauge_Record c ;;;
  started <- tracer_Start env (req_Context r) "cartAddHandler" ;;
  let span := snd started in
  c <- get_cartCount ;;
  span_SetAttributes span [attribute_Int64 "cartAddHandler.cartCount" c] ;;;
  c <- get_cartCount ;;
  let message := ("Item added to cart. Number of items in cart: " ++ fmt_d c ++ ".")%string in
  let w' := Write (WriteHeader w http_StatusOK) message in
  span_End env span ;;;
  ret w'.

(** [cartRemoveHandler]. *)
Definition cartRemoveHandler (env : Env) (w : ResponseWriter) (r : Request)
  : M ResponseWriter :=
  c <- get_cartCount ;;
  (if negb (c =? 0) then
     c <- get_cartCount ;;
     set_cartCount (Int64.sub c 1)
   else ret tt) ;;;
  c <- get_cartCount ;;
  itemGauge_Record c ;;;
  started <- tracer_Start env (req_Context r) "cartRemoveHandler" ;;
  let span := snd started in
  c <- get_cartCount ;;
  span_SetAttributes span [attribute_Int64 "cartRemoveHandler.cartCount" c] ;;;
  c <- get_cartCount ;;
  let message := ("Item removed from cart. Number of items in cart: " ++ fmt_d c ++ ".")%string in
  let w' := Write (WriteHeader w http_StatusOK) message in
  span_End env span ;;;
  ret w'.

(** The three routes registered by [main]. *)
Inductive Route : Type :=
| RouteHello        (* "/" *)
| RouteCartAdd      (* "/cart/add" *)
| RouteCartRemove.  (* "/cart/remove" *)

(** A request as [net/http] hands it to a handler: the program installs no
    tracing middleware, so the request context carries no span. *)
Definition server_request : Request := {| req_Context := None |}.

Definition serve (env : Env) (route : Route) : M ResponseWriter :=
  match route with
  | RouteHello => helloWorldHandler env newResponseWriter server_request
  | RouteCartAdd => cartAddHandler env newResponseWriter server_request
  | RouteCartRemove => cartRemoveHandler env newResponseWriter server_request
  end.

(** Requests served one after the other; the responses are returned in the
    order of the requests. *)
Fixpoint serve_all (env : Env) (routes : list Route) : M (list ResponseWriter) :=
  match routes with
  | [] => ret []
  | route :: rest =>
      resp <- serve env route ;;
      resps <- serve_all env rest ;;
      ret (resp :: resps)
  end.

(** What one request does to [cartCount]. *)
Definition next_count (route : Route) (c : Z) : Z :=
  match route with
  | RouteHello => c
  | RouteCartAdd => Int64.add c 1
  | RouteCartRemove => if c =? 0 then c else Int64.sub c 1
  end.

(** ** Goroutine interleaving of the cart handlers

    [net/http] runs every request in its own goroutine, and the handlers
    read and write the package-level [cartCount] without a lock or an
    atomic. The statement [cartCount = cartCount + 1] is a load followed by
    a store; between the two, other goroutines may run. This module keeps
    of each handler its accesses to [cartCount] and to the gauge, in source
    order, and runs several handlers under an arbitrary schedule. Each
    access is atomic and takes effect at once: every run below is one that
    Go's memory model allows. *)

Module Race.

Inductive Instr : Type :=
| Load                   (* local := cartCount *)
| StoreInc               (* cartCount = local + 1 *)
| StoreDec               (* cartCount = local - 1 *)
| SkipIfZero (n : nat)   (* if !(local != 0): jump over the next n accesses *)
| GaugeRecord            (* itemGauge.Record(ctx, local) *)
| SetAttr                (* span.SetAttributes(attribute.Int64(_, local)) *)
| Respond.               (* fmt.Sprintf(_, local); w.Write(_) *)

(** [cartAddHandler], lines 253, 254, 260, 263. *)
Definition cartAdd_code : list Instr :=
  [Load; StoreInc; Load; GaugeRecord; Load; SetAttr; Load; Respond].

(** [cartRemoveHandler], lines 269 to 272, 278, 281. *)
Definition cartRemove_code : list Instr :=
  [Load; SkipIfZero 2; Load; StoreDec; Load; GaugeRecord; Load; SetAttr;
   Load; Respond].

Inductive Op : Type := Add | Remove.

Definition code_of (op : Op) : list Instr :=
  match op with Add => cartAdd_code | Remove => cartRemove_code end.

(** The route behind each operation. *)
Definition route_of (op : Op) : Route :=
  match op with Add => RouteCartAdd | Remove => RouteCartRemove end.

(** A goroutine: the accesses it still has to run, the value it last
    loaded, and the counts it put in its span and in its response. *)
Record Thread : Type := mkThread {
  code : list Instr;
  local : Z;
  attrs : list Z;
  replies : list Z
}.

(** The memory the goroutines share. *)
Record Shared : Type := mkShared {
  sh_cartCount : Z;
  sh_itemGauge : option Z
}.

Record Config : Type := mkConfig {
  shared : Shared;
  threads : list Thread
}.

(** One access of one goroutine. *)
Definition exec (i : Instr) (rest : list Instr) (t : Thread) (sh : Shared)
  : Thread * Shared :=
  match i with
  | Load =>
      (mkThread rest (sh_cartCount sh) (attrs t) (replies t), sh)
  | StoreInc =>
      (mkThread rest (local t) (attrs t) (replies t),
       mkShared (Int64.add (local t) 1) (sh_itemGauge sh))
  | StoreDec =>
      (mkThread rest (local t) (attrs t) (replies t),
       mkShared (Int64.sub (local t) 1) (sh_itemGauge sh))
  | SkipIfZero n =>
      (mkThread (if local t =? 0 then skipn n rest else rest)
                (local t) (attrs t) (replies t), sh)
  | GaugeRecord =>
      (mkThread rest (local t) (attrs t) (replies t),
       mkShared (sh_cartCount sh) (Gauge_Record (sh_itemGauge sh) (local t)))
  | SetAttr =>
      (mkThread rest (local t) (attrs t ++ [local t]) (replies t), sh)
  | Respond =>
      (mkThread rest (local t) (attrs t) (replies t ++ [local t]), sh)
  end.

Fixpoint set_nth {A} (n : nat) (x : A) (l : list A) : list A :=
  match l, n with
  | [], _ => []
  | _ :: l', O => x :: l'
  | y :: l', S n' => y :: set_nth n' x l'
  end.

(** The scheduler lets goroutine [tid] run its next access; a goroutine
    that has finished, or does not exist, does nothing. *)
Definition step (cfg : Config) (tid : nat) : Config :=
  match nth_error (threads cfg) tid with
  | Some t =>
      match code t with
      | [] => cfg
      | i :: rest =>
          let '(t', sh') := exec i rest t (shared cfg) in
          mkConfig sh' (set_nth tid t' (threads cfg))
      end
  | None => cfg
  end.

Definition run (schedule : list nat) (cfg : Config) : Config :=
  fold_left step schedule cfg.

Definition finished (cfg : Config) : bool :=
  forallb (fun t => match code t with [] => true | _ => false end) (threads cfg).

(** One goroutine per element of [work]; each runs its handlers, in
    order, one after the other. *)
Definition spawn (work : list (list Op)) (sh : Shared) : Config :=
  mkConfig sh (map (fun ops => mkThread (flat_map code_of ops) 0 [] []) work).

(** The schedule that runs goroutine [tid] alone for [n] accesses. *)
Definition alone (tid n : nat) : list nat := repeat tid n.

(** A handler running with no other goroutine in its way. *)
Definition run_alone (op : Op) (sh : Shared) : Shared :=
  shared (run (alone 0 (length (code_of op))) (spawn [[op]] sh)).

Definition shared0 : Shared := mkShared 0 None.

(** The increments minus the decrements of a list of operations. *)
Definition net (ops : list Op) : Z :=
  fold_right (fun op acc => match op with Add => acc + 1 | Remove => acc - 1 end) 0 ops.

(** The net sum of the operations of all the goroutines. *)
Definition net_sum (work : list (list Op)) : Z := net (concat work).

(** The scenario of the specification: three [CartAdd] requests in
    flight together under [schedule]; once they are done, one
    [CartRemove]. The result is [None] when [schedule] stops before the
    three requests have finished. *)
Definition three_adds_then_remove (schedule : list nat) : option Shared :=
  let cfg := run schedule (spawn [[Add]; [Add]; [Add]] shared0) in
  if finished cfg then Some (run_alone Remove (shared cfg)) else None.

(** Every goroutine runs one access in turn, [rounds] times over. *)
Definition round_robin (n rounds : nat) : list nat :=
  concat (repeat (seq 0 n) rounds).

(** The next handler of goroutine [tid], and the work left once it has run. *)
Fixpoint take_next (tid : nat) (work : list (list Op)) : option (Op * list (list Op)) :=
  match work, tid with
  | [], _ => None
  | [] :: _, O => None
  | (op :: ops) :: others, O => Some (op, ops :: others)
  | ops :: others, S tid' =>
      match take_next tid' others with
      | Some (op, others') => Some (op, ops :: others')
      | None => None
      end
  end.

(** The number of accesses a handler makes when it finds [c] in the cart:
    a removal from an empty cart jumps over its load and store. *)
Definition steps_of (op : Op) (c : Z) : nat :=
  match op with
  | Add => length cartAdd_code
  | Remove => if c =? 0 then (length cartRemove_code - 2)%nat else length cartRemove_code
  end.

(** A serial order names, at each turn, the goroutine whose next handler
    runs alone to completion. [serial] is the schedule it stands for, from
    a cart of [c] items, and [served] the handlers it runs, in order. *)
Fixpoint serial (order : list nat) (work : list (list Op)) (c : Z) : list nat :=
  match order with
  | [] => []
  | tid :: order' =>
      match take_next tid work with
      | Some (op, work') =>
          alone tid (steps_of op c)
          ++ serial order' work' (next_count (route_of op) c)
      | None => serial order' work c
      end
  end.

Fixpoint served (order : list nat) (work : list (list Op)) : list Op :=
  match order with
  | [] => []
  | tid :: order' =>
      match take_next tid work with
      | Some (op, work') => op :: served order' work'
      | None => served order' work
      end
  end.

(** The goroutines of a configuration still have [work] to do. *)
Definition has_work (cfg : Config) (work : list (list Op)) : Prop :=
  map code (threads cfg) = map (flat_map code_of) work.

(** One goroutine running alone for [n] accesses. *)
Fixpoint solo (n : nat) (t : Thread) (sh : Shared) : Thread * Shared :=
  match n with
  | O => (t, sh)
  | S n' =>
      match code t with
      | [] => (t, sh)
      | i :: rest => let '(t', sh') := exec i rest t sh in solo n' t' sh'
      end
  end.

Fixpoint remaining (order : list nat) (work : list (list Op)) : list (list Op) :=
  match order with
  | [] => work
  | tid :: order' =>
      match take_next tid work with
      | Some (_, work') => remaining order' work'
      | None => remaining order' work
      end
  end.

(** ** What the pending stores allow *)

(** Number of stores of a given kind that a piece of code still has to run. *)
Fixpoint count_incs (c : list Instr) : nat :=
  match c with
  | [] => O
  | StoreInc :: c' => S (count_incs c')
  | _ :: c' => count_incs c'
  end.

Fixpoint count_decs (c : list Instr) : nat :=
  match c with
  | [] => O
  | StoreDec :: c' => S (count_decs c')
  | _ :: c' => count_decs c'
  end.

(** The same, summed over the goroutines. *)
Definition pending_incs (ts : list Thread) : nat :=
  list_sum (map (fun t => count_incs (code t)) ts).

Definition pending_decs (ts : list Thread) : nat :=
  list_sum (map (fun t => count_decs (code t)) ts).

(** Number of additions and of removals requested. *)
Definition adds_of (work : list (list Op)) : nat :=
  length (List.filter (fun op => match op with Add => true | Remove => false end)
                      (concat work)).

Definition removes_of (work : list (list Op)) : nat :=
  length (List.filter (fun op => match op with Add => false | Remove => true end)
                      (concat work)).

(** What every schedule keeps: with [a] additions and [r] removals
    requested, the count and every value a goroutine has loaded lie between
    minus the removals no longer pending and the additions no longer
    pending. *)
Definition within (a r : Z) (cfg : Config) : Prop :=
  let lo := Z.of_nat (pending_decs (threads cfg)) - r in
  let hi := a - Z.of_nat (pending_incs (threads cfg)) in
  lo <= sh_cartCount (shared cfg) <= hi
  /\ Forall (fun t => lo <= local t <= hi) (threads cfg).

(** With [a] additions and [r] removals requested: every number that was
    reported, in the gauge, in a span or in a response, lies between [-r]
    and [a]. *)
Definition reported (a r : Z) (cfg : Config) : Prop :=
  match sh_itemGauge (shared cfg) with
  | Some v => - r <= v <= a
  | None => True
  end
  /\ Forall (fun t => Forall (fun v => - r <= v <= a) (replies t)
                      /\ Forall (fun v => - r <= v <= a) (attrs t))
            (threads cfg).

(** The accesses to [cartCount], as opposed to what a handler reports. *)
Definition is_access (i : Instr) : bool :=
  match i with Load | StoreInc | StoreDec => true | _ => false end.

Definition is_respond (i : Instr) : bool :=
  match i with Respond => true | _ => false end.

Definition is_setattr (i : Instr) : bool :=
  match i with SetAttr => true | _ => false end.

(** Every jump is over accesses to [cartCount] only. *)
Fixpoint silent_skips (c : list Instr) : bool :=
  match c with
  | [] => true
  | SkipIfZero n :: rest => forallb is_access (firstn n rest) && silent_skips rest
  | _ :: rest => silent_skips rest
  end.

(** A goroutine with [n] requests to serve: what it has answered and what
    it still has to answer make [n], for the responses and for the span
    attributes. *)
Definition answering (n : nat) (t : Thread) : Prop :=
  silent_skips (code t) = true
  /\ (length (replies t) + length (List.filter is_respond (code t)) = n)%nat
  /\ (length (attrs t) + length (List.filter is_setattr (code t)) = n)%nat.

End Race.

(** ** The meter *)

Inductive InstrumentKind : Type :=
| Int64CounterKind
| Float64HistogramKind
| Int64GaugeKind
| Float64ObservableGaugeKind.

(** What a registration returns: the identity of the instrument. *)
Record Instrument : Type := mkInstrument {
  inst_kind : InstrumentKind;
  inst_name : string;
  inst_description : string;
  inst_unit : string
}.

(** [runtime.MemStats]: the program reads [Alloc], a [uint64]. *)
Record MemStats : Type := mkMemStats { Alloc : Z }.

(** [metric.Float64Callback]: what the callback observes on the
    [metric.Float64Observer] it is given, and the error it returns. The
    quotient of two [float64] is taken here in the rationals. *)
Definition Float64Callback : Type := MemStats -> list Q * option error.

(** [metric.Meter] is an interface: the program only depends on what a
    registration returns. [S] is the state of the implementation. *)
Class Meter (S : Type) : Type := {
  register : InstrumentKind -> string -> string -> string ->
             option Float64Callback -> S -> result Instrument * S
}.

(** State of the meter of the specification: the identities registered and
    the callbacks of the observable instruments, in registration order. *)
Record Registry : Type := mkRegistry {
  registered : gset (string * string);
  callbacks : list Float64Callback
}.

Definition empty_registry : Registry :=
  {| registered := ∅; callbacks := [] |}.

(** Modelled from the spec: [RegisterCounter/Histogram/Gauge(name, unit,
    description)] of the metrics SDK, which is not part of the repository:
    "fails with DuplicateInstrumentError if name+unit already registered".
    A failed registration leaves the registry as it was. *)
Definition Registry_register (kind : InstrumentKind) (name desc unit_ : string)
    (cb : option Float64Callback) (r : Registry) : result Instrument * Registry :=
  if decide ((name, unit_) ∈ registered r)
  then (Err (DuplicateInstrumentError name unit_), r)
  else (Ok (mkInstrument kind name desc unit_),
        {| registered := {[ (name, unit_) ]} ∪ registered r;
           callbacks := callbacks r ++ match cb with Some f => [f] | None => [] end |}).

#[export] Instance SpecMeter : Meter Registry :=
  {| register := Registry_register |}.

(** Modelled from the spec: "Observable gauges invoke a registered
    callback at each export tick to pull the current value": the values
    observed at one export tick, given the memory statistics of the
    moment. *)
Definition export_tick (ms : MemStats) (r : Registry) : list Q :=
  flat_map (fun cb => fst (cb ms)) (callbacks r).

(** ** Startup: [main] and the [init*] functions *)

Module Startup.

(** Handles returned by the libraries. *)
Definition Conn : Type := nat.
Definition Exporter : Type := nat.
Definition Resource : Type := list (string * string).

(** The library calls [main] makes, in the order it makes them. *)
Inductive Call : Type :=
| grpc_NewClient (target : string)
| resource_New (attrs : list (string * string))
| otlptracegrpc_New (conn : Conn)
| otlpmetricgrpc_New (conn : Conn)
| otel_SetTracerProvider (exporter : Exporter) (res : Resource)
| otel_SetTextMapPropagator
| otel_SetMeterProvider (exporter : Exporter) (interval : Z) (res : Resource)
| otel_Tracer (name : string)
| otel_Meter (name : string)
| meter_register (kind : InstrumentKind) (name : string)
| go_collectMachineResourceMetrics
| http_HandleFunc (pattern : string) (route : Route)
| fmt_Println (line : string)
| http_ListenAndServe (addr : string)
| log_Fatal (e : error).

(** What the libraries answer. [ListenAndServe] returns only to report
    an error: [None] is a server that keeps serving. *)
Record Libs : Type := mkLibs {
  dial : string -> result Conn;
  new_resource : list (string * string) -> result Resource;
  new_trace_exporter : Conn -> result Exporter;
  new_metric_exporter : Conn -> result Exporter;
  listen : string -> option error
}.

(** Where a computation of [main] stands: still running with a value,
    exited through [os.Exit], or blocked for good in the server loop. *)
Inductive Status (A : Type) : Type :=
| Running (a : A)
| Exited (code : Z)
| Serving.
Arguments Running {A} a.
Arguments Exited {A} code.
Arguments Serving {A}.

(** The calls made so far, each with whether it succeeded, and the state
    of the meter. *)
Record Proc (S : Type) : Type := mkProc {
  calls : list (Call * bool);
  meter_state : S
}.
Arguments mkProc {S} calls meter_state.
Arguments calls {S} p.
Arguments meter_state {S} p.

Definition Main (S A : Type) : Type := Proc S -> Status A * Proc S.

Definition main_ret {S A} (a : A) : Main S A := fun p => (Running a, p).

Definition main_bind {S A B} (m : Main S A) (k : A -> Main S B) : Main S B :=
  fun p =>
    match m p with
    | (Running a, p') => k a p'
    | (Exited code, p') => (Exited code, p')
    | (Serving, p') => (Serving, p')
    end.

Declare Scope main_scope.
Delimit Scope main_scope with main.
Notation "x <-- m ;; k" := (main_bind m (fun x => k))
  (at level 62, m at next level, right associativity) : main_scope.
Notation "m ;;;; k" := (main_bind m (fun _ => k))
  (at level 62, right associativity) : main_scope.
Local Open Scope main_scope.

Definition call {S} (c : Call) (ok : bool) : Main S unit :=
  fun p => (Running tt, mkProc (calls p ++ [(c, ok)]) (meter_state p)).

(** A library call whose answer is [r]. *)
Definition lib {S A} (c : Call) (r : result A) : Main S (result A) :=
  call c (is_ok r) ;;;; main_ret r.

(** [log.Fatal(err)]: logs, then [os.Exit(1)]; deferred calls do not run. *)
Definition log_Fatal_ {S A} (e : error) : Main S A :=
  fun p => (Exited 1, mkProc (calls p ++ [(log_Fatal e, true)]) (meter_state p)).

(** A registration with the process's meter. *)
Definition meter_new {S} `{Meter S} (kind : InstrumentKind) (name desc unit_ : string)
  : Main S (result Instrument) :=
  fun p =>
    let '(r, st) := register kind name desc unit_ None (meter_state p) in
    (Running r, mkProc (calls p ++ [(meter_register kind name, is_ok r)]) st).

Definition serviceName : string := "test-service".
Definition collectorURL : string := "localhost:4317".

Section WithLibs.

Context {S : Type} `{Meter S}.
Variable libs : Libs.

(** [initGrpcConn]. *)
Definition initGrpcConn : Main S (result Conn) :=
  r <-- lib (grpc_NewClient collectorURL) (dial libs collectorURL) ;;
  match r with
  | Err err =>
      main_ret (Err (wrapError "failed to create gRPC connection to collector" err))
  | Ok conn => main_ret (Ok conn)
  end.

(** [initMeterProvider]: the value returned on success stands for
    [meterProvider.Shutdown]. *)
Definition initMeterProvider (res : Resource) (conn : Conn) : Main S (result unit) :=
  r <-- lib (otlpmetricgrpc_New conn) (new_metric_exporter libs conn) ;;
  match r with
  | Err err => main_ret (Err (wrapError "failed to create metrics exporter" err))
  | Ok metricExporter =>
      call (otel_SetMeterProvider metricExporter (3 * 1000000000) res) true ;;;;
      main_ret (Ok tt)
  end.

(** [initTraceProvider]: a failure to create the exporter is fatal
    here, inside the function, which therefore never returns an error. *)
Definition initTraceProvider (res : Resource) (conn : Conn) : Main S (result unit) :=
  r <-- lib (otlptracegrpc_New conn) (new_trace_exporter libs conn) ;;
  match r with
  | Err err => log_Fatal_ (wrapError "Failed to create exporter" err)
  | Ok traceExporter =>
      call (otel_SetTracerProvider traceExporter res) true ;;;;
      call otel_SetTextMapPropagator true ;;;;
      main_ret (Ok tt)
  end.

(** [if err != nil { log.Fatal(err) }] after a call that returned [r]. *)
Definition check {A} (r : result A) : Main S A :=
  match r with
  | Err err => log_Fatal_ err
  | Ok a => main_ret a
  end.

(** [main]. The two deferred shutdown calls are not modelled: [main]
    leaves through [os.Exit] or never leaves, so they never run. *)
Definition main : Main S unit :=
  r <-- initGrpcConn ;;
  conn <-- check r ;;
  r <-- lib (resource_New [("service.name", serviceName); ("library.language", "go")])
            (new_resource libs [("service.name", serviceName); ("library.language", "go")]) ;;
  res <-- check r ;;
  r <-- initTraceProvider res conn ;;
  check r ;;;;
  r <-- initMeterProvider res conn ;;
  check r ;;;;
  call (otel_Tracer serviceName) true ;;;;
  call (otel_Meter serviceName) true ;;;;
  r <-- meter_new Int64CounterKind "api.request.error_counter"
          "Number of erroneous API calls." "{call}" ;;
  check r ;;;;
  r <-- meter_new Float64HistogramKind "api.request.latency_seconds"
          "Records the latency of requests in seconds" "{s}" ;;
  check r ;;;;
  call go_collectMachineResourceMetrics true ;;;;
  r <-- meter_new Int64GaugeKind "api.cart.items"
          "Tracks the number of items in a user's cart" "{item}" ;;
  check r ;;;;
  call (http_HandleFunc "/" RouteHello) true ;;;;
  call (http_HandleFunc "/cart/add" RouteCartAdd) true ;;;;
  call (http_HandleFunc "/cart/remove" RouteCartRemove) true ;;;;
  call (fmt_Println "Starting server on localhost:8080") true ;;;;
  match listen libs ":8080" with
  | Some err =>
      call (http_ListenAndServe ":8080") false ;;;;
      log_Fatal_ (wrapError "failed to start server" err)
  | None =>
      call (http_ListenAndServe ":8080") true ;;;;
      fun p => (Serving, p)
  end.

End WithLibs.

Definition start {S} (st : S) : Proc S := mkProc [] st.

(** Libraries that all answer with success. *)
Definition healthy : Libs :=
  {| dial := fun _ => Ok 7%nat;
     new_resource := fun attrs => Ok attrs;
     new_trace_exporter := fun _ => Ok 1%nat;
     new_metric_exporter := fun _ => Ok 2%nat;
     listen := fun _ => None |}.

End Startup.

(** ** The background sampler: [collectMachineResourceMetrics]

    The function is an endless loop around a channel receive. It is an
    interaction tree over the three things it asks of its environment:
    a ticker, the next tick, and a registration with the meter. Its result
    type is empty: the loop has no [break] and no [return]. *)

Module Sampler.

Definition Second : Z := 1000000000.

Variant samplerE : Type -> Type :=
| time_NewTicker (d : Z) : samplerE unit
| ticker_C : samplerE unit            (* <-ticker.C: waits for the next tick *)
| meter_Float64ObservableGauge (name desc unit_ : string) (cb : Float64Callback)
    : samplerE (result Instrument).

Definition period : Z := 5 * Second.

(** [var Mb uint64 = 1_048_576] *)
Definition Mb : Z := 1048576.

(** The callback handed to the meter: it reads the memory statistics,
    observes the allocated memory in MB, and returns [nil]. *)
Definition allocated_memory_callback : Float64Callback :=
  fun memStats =>
    let allocatedMemoryInMB := (inject_Z (Alloc memStats) / inject_Z Mb)%Q in
    ([allocatedMemoryInMB], None).

(** The body of the [select]: one tick, then one registration, whose
    two results the source drops. *)
Definition on_tick : itree samplerE unit :=
  ITree.bind (ITree.trigger ticker_C) (fun _ =>
  ITree.bind (ITree.trigger
                (meter_Float64ObservableGauge "process.allocated_memory"
                   "Allocated memory in MB." "{MB}" allocated_memory_callback))
             (fun _ => Ret tt)).

Definition collectMachineResourceMetrics : itree samplerE void :=
  ITree.bind (ITree.trigger (time_NewTicker period)) (fun _ =>
  ITree.forever on_tick).

(** One registration made by the sampler: what it asked and what the
    meter answered. *)
Record Registration : Type := mkRegistration {
  reg_name : string;
  reg_description : string;
  reg_unit : string;
  reg_callback : Float64Callback;
  reg_result : result Instrument
}.

(** The sampler as seen from outside after some ticks: the period of the
    ticker it created, if any, and its registrations, oldest first. *)
Record Observed (S : Type) : Type := mkObserved {
  ticker_period : option Z;
  registrations : list Registration;
  meter_after : S
}.
Arguments mkObserved {S} ticker_period registrations meter_after.
Arguments ticker_period {S} o.
Arguments registrations {S} o.
Arguments meter_after {S} o.

(** Where a run stands when it is stopped: waiting on [ticker.C] for a
    tick that has not come yet, or cut short by the step bound. *)
Inductive Run (S : Type) : Type :=
| Waiting (o : Observed S)
| OutOfFuel (o : Observed S).
Arguments Waiting {S} o.
Arguments OutOfFuel {S} o.

(** Runs the tree against a meter while the ticker delivers [ticks]
    ticks. [fuel] bounds the number of nodes of the tree visited. *)
Fixpoint run_tree {S} `{Meter S} (fuel ticks : nat) (t : itree samplerE void)
    (o : Observed S) : Run S :=
  match fuel with
  | O => OutOfFuel o
  | Datatypes.S fuel' =>
      match observe t with
      | RetF v => match v : void with end
      | TauF t' => run_tree fuel' ticks t' o
      | VisF e k =>
          match e in samplerE X return (X -> itree samplerE void) -> Run S with
          | time_NewTicker d => fun k =>
              run_tree fuel' ticks (k tt)
                (mkObserved (Some d) (registrations o) (meter_after o))
          | ticker_C => fun k =>
              match ticks with
              | O => Waiting o
              | Datatypes.S ticks' => run_tree fuel' ticks' (k tt) o
              end
          | meter_Float64ObservableGauge name desc unit_ cb => fun k =>
              let '(r, st) :=
                register Float64ObservableGaugeKind name desc unit_ (Some cb)
                         (meter_after o) in
              run_tree fuel' ticks (k r)
                (mkObserved (ticker_period o)
                   (registrations o ++ [mkRegistration name desc unit_ cb r]) st)
          end k
      end
  end.

(** The goroutine started by [main], run for [ticks] ticks over the
    meter state [st]. *)
Definition run_sampler {S} `{Meter S} (fuel ticks : nat) (st : S) : Run S :=
  run_tree fuel ticks collectMachineResourceMetrics (mkObserved None [] st).

(** Steps that suffice for [ticks] ticks. *)
Definition enough (ticks : nat) : nat := 3 * ticks + 2.

Definition gauge_registration (r : result Instrument) : Registration :=
  mkRegistration "process.allocated_memory" "Allocated memory in MB." "{MB}"
                 allocated_memory_callback r.

(** A meter whose every registration fails. *)
#[export] Instance FailingMeter : Meter unit :=
  {| register := fun _ name _ unit_ _ st => (Err (errorString "no meter"), st) |}.

Definition allocated_memory_key : string * string :=
  ("process.allocated_memory", "{MB}")%string.

Definition allocated_memory_gauge : Instrument :=
  mkInstrument Float64ObservableGaugeKind "process.allocated_memory"
               "Allocated memory in MB." "{MB}".

Definition duplicate_gauge : error :=
  DuplicateInstrumentError "process.allocated_memory" "{MB}".

End Sampler.

(** ** Example inputs *)

(** A clock that advances by one nanosecond per reading, and a random
    source whose every draw is 0. *)
Definition example_env : Env :=
  {| now := fun n => Z.of_nat n; rand_Float64 := fun _ => 0 |}.

(** 2^63 requests to [/cart/add], one after the other. *)
Definition overflowing_adds : list Route :=
  repeat RouteCartAdd (Z.to_nat (2 ^ 63)).

(** ** Summaries of the handlers *)

Definition count_route (route : Route) (routes : list Route) : nat :=
  length (List.filter (fun r => match r, route with
                           | RouteHello, RouteHello
                           | RouteCartAdd, RouteCartAdd
                           | RouteCartRemove, RouteCartRemove => true
                           | _, _ => false
                           end) routes).

Definition count_adds : list Route -> nat := count_route RouteCartAdd.
Definition count_removes : list Route -> nat := count_route RouteCartRemove.

Definition finished_span (s : Span) (attrs : list KeyValue) (end_ : Z) : Span :=
  mkSpan (span_name s) (span_trace s) (span_parent s) (span_start s) (Some end_) attrs.

Definition hello_fails (env : Env) (w : World) : bool :=
  rand_Float64 env (rand_draws w) <? 2 ^ 52.

Definition cart_message (route : Route) (c : Z) : string :=
  match route with
  | RouteCartRemove => "Item removed from cart. Number of items in cart: " ++ fmt_d c ++ "."
  | _ => "Item added to cart. Number of items in cart: " ++ fmt_d c ++ "."
  end%string.

Definition cart_world (env : Env) (route : Route) (name attr : string) (r : Request)
    (w : World) : World :=
  let c := next_count route (cartCount w) in
  {| cartCount := c;
     errorCounter := errorCounter w;
     latencyHistogram := latencyHistogram w;
     itemGauge := Some c;
     tracer :=
       {| spans := spans (tracer w) ++
            [finished_span
               (new_span (now env (clock_reads w)) (req_Context r) name (tracer w))
               [attribute_Int64 attr c]
               (now env (1 + clock_reads w))];
          traces := match parent_span (req_Context r) (tracer w) with
                    | Some _ => traces (tracer w)
                    | None => S (traces (tracer w))
                    end |};
     clock_reads := (2 + clock_reads w)%nat;
     rand_draws := rand_draws w |}.

Definition lookup_attr (key : string) (attrs : list KeyValue) : option Value :=
  option_map snd (find (fun kv => String.eqb (fst kv) key) attrs).

Definition span_attr (key : string) (id : nat) (w : World) : option Value :=
  match nth_error (spans (tracer w)) id with
  | Some s => lookup_attr key (span_attrs s)
  | None => None
  end.

Fixpoint add_all (deltas : list Z) : M unit :=
  match deltas with
  | [] => ret tt
  | delta :: rest => bind (errorCounter_Add delta) (fun _ => add_all rest)
  end.

(** ** Sequences of tracer calls *)

(** A call to the tracer. *)
Inductive SpanOp : Type :=
| OpStartSpan (parent : Context) (name : string)
| OpSetAttributes (id : nat) (kvs : list KeyValue)
| OpEndSpan (id : nat).

Definition apply_op (at_ : Z) (op : SpanOp) (r : Recorder) : Recorder :=
  match op with
  | OpStartSpan parent name => snd (StartSpan at_ parent name r)
  | OpSetAttributes id kvs => SetAttributes id kvs r
  | OpEndSpan id => EndSpan at_ id r
  end.

(** A sequence of calls; the [k]-th call of the process is made at the
    [k]-th reading of the clock. *)
Fixpoint run_ops (env : Env) (k : nat) (ops : list SpanOp) (r : Recorder) : Recorder :=
  match ops with
  | [] => r
  | op :: rest => run_ops env (S k) rest (apply_op (now env k) op r)
  end.

Definition empty_recorder : Recorder := {| spans := []; traces := 0 |}.

Definition is_root_of (t : nat) (s : Span) : bool :=
  Nat.eqb (span_trace s) t
  && match span_parent s with None => true | Some _ => false end.

(** Number of root spans of trace [t]. *)
Definition roots (t : nat) (l : list Span) : nat :=
  length (List.filter (is_root_of t) l).

(** The invariant of the tracer: no span started after [bound]; no span
    ended before it started; every span belongs to a trace that was
    opened; every opened trace has one root. *)
Record RecInv (bound : Z) (r : Recorder) : Prop := mkRecInv {
  inv_started : forall s, In s (spans r) -> span_start s <= bound;
  inv_timed : forall s e, In s (spans r) -> span_end s = Some e -> span_start s <= e;
  inv_traced : forall s, In s (spans r) -> (span_trace s < traces r)%nat;
  inv_roots : forall t, roots t (spans r) = if (t <? traces r)%nat then 1%nat else 0%nat
}.

(** What holds of the tracer between two requests: the invariant, up to
    the current time, and every span closed. *)
Definition quiescent (env : Env) (w : World) : Prop :=
  RecInv (now env (clock_reads w)) (tracer w)
  /\ forall s, In s (spans (tracer w)) -> exists e, span_end s = Some e.

(** ** Observations on a run of main *)

Definition is_dial (c : Startup.Call * bool) : bool :=
  match fst c with Startup.grpc_NewClient _ => true | _ => false end.

(** The attributes [main] gives to [resource.New]. *)
Definition resource_attrs : list (string * string) :=
  [("service.name", Startup.serviceName); ("library.language", "go")]%string.

(** A registry in which the name and unit of the cart gauge are taken. *)
Definition taken_registry : Registry :=
  {| registered := {[ ("api.cart.items", "{item}")%string ]}; callbacks := [] |}.

(** Number of connections the process asked for. *)
Definition dials {S} (p : Startup.Proc S) : nat :=
  length (List.filter is_dial (Startup.calls p)).

(** ** Summaries of the responses *)

(** Number of responses with status [code]. *)
Definition count_status (code : Z) (resps : list ResponseWriter) : nat :=
  length (List.filter (fun resp => match rw_status resp with
                                   | Some c => c =? code
                                   | None => false
                                   end) resps).

(** The name each handler gives to its span. *)
Definition handler_name (route : Route) : string :=
  match route with
  | RouteHello => "helloWorldHandler"
  | RouteCartAdd => "cartAddHandler"
  | RouteCartRemove => "cartRemoveHandler"
  end.

(** Whether a request is one of the two cart requests. *)
Definition is_cart (route : Route) : bool :=
  match route with RouteHello => false | _ => true end.

(** ** The calls of main *)

(** The three instruments [main] creates: kind, name, description, unit. *)
Definition instruments : list (InstrumentKind * string * string * string) :=
  [(Int64CounterKind, "api.request.error_counter",
    "Number of erroneous API calls.", "{call}");
   (Float64HistogramKind, "api.request.latency_seconds",
    "Records the latency of requests in seconds", "{s}");
   (Int64GaugeKind, "api.cart.items",
    "Tracks the number of items in a user's cart", "{item}")]%string.

(** Name and unit of the three instruments. *)
Definition instrument_keys : list (string * string) :=
  [("api.request.error_counter", "{call}"); ("api.request.latency_seconds", "{s}");
   ("api.cart.items", "{item}")]%string.

(** The errors [main] may hand to [log.Fatal], given what the libraries
    and the meter answer. *)
Inductive fatal_error {S} `{Meter S} (libs : Startup.Libs) : error -> Prop :=
| fatal_dial e :
    Startup.dial libs Startup.collectorURL = Err e ->
    fatal_error libs (wrapError "failed to create gRPC connection to collector" e)
| fatal_resource e :
    Startup.new_resource libs resource_attrs = Err e ->
    fatal_error libs e
| fatal_trace_exporter conn e :
    Startup.dial libs Startup.collectorURL = Ok conn ->
    Startup.new_trace_exporter libs conn = Err e ->
    fatal_error libs (wrapError "Failed to create exporter" e)
| fatal_metric_exporter conn e :
    Startup.dial libs Startup.collectorURL = Ok conn ->
    Startup.new_metric_exporter libs conn = Err e ->
    fatal_error libs (wrapError "failed to create metrics exporter" e)
| fatal_instrument kind name desc unit_ st e :
    In (kind, name, desc, unit_) instruments ->
    fst (register kind name desc unit_ None st) = Err e ->
    fatal_error libs e
| fatal_listen e :
    Startup.listen libs ":8080" = Some e ->
    fatal_error libs (wrapError "failed to start server" e).

Definition is_fatal (c : Startup.Call * bool) : bool :=
  match fst c with Startup.log_Fatal _ => true | _ => false end.


(** The calls of a run of [main] in which nothing fails, in order. *)
Definition startup_calls (conn : Startup.Conn) (res : Startup.Resource)
    (traceExporter metricExporter : Startup.Exporter) : list Startup.Call :=
  [Startup.grpc_NewClient "localhost:4317";
   Startup.resource_New [("service.name", "test-service"); ("library.language", "go")];
   Startup.otlptracegrpc_New conn;
   Startup.otel_SetTracerProvider traceExporter res;
   Startup.otel_SetTextMapPropagator;
   Startup.otlpmetricgrpc_New conn;
   Startup.otel_SetMeterProvider metricExporter (3 * 1000000000) res;
   Startup.otel_Tracer "test-service";
   Startup.otel_Meter "test-service";
   Startup.meter_register Int64CounterKind "api.request.error_counter";
   Startup.meter_register Float64HistogramKind "api.request.latency_seconds";
   Startup.go_collectMachineResourceMetrics;
   Startup.meter_register Int64GaugeKind "api.cart.items";
   Startup.http_HandleFunc "/" RouteHello;
   Startup.http_HandleFunc "/cart/add" RouteCartAdd;
   Startup.http_HandleFunc "/cart/remove" RouteCartRemove;
   Startup.fmt_Println "Starting server on localhost:8080";
   Startup.http_ListenAndServe ":8080"]%string.

(** * Properties *)

(** ** The embedding on concrete inputs *)

(** Two additions, a removal and a failing hello, one after the other. *)
Example four_requests :
  let run := serve_all example_env
               [RouteCartAdd; RouteCartAdd; RouteCartRemove; RouteHello]
               initial_world in
  map rw_status (fst run) = [Some 200; Some 200; Some 200; Some 500]
  /\ map rw_body (fst run)
     = ["Item added to cart. Number of items in cart: 1.";
        "Item added to cart. Number of items in cart: 2.";
        "Item removed from cart. Number of items in cart: 1.";
        "Internal Server Error" ++ String (ascii_of_nat 10) ""]%string
  /\ cartCount (snd run) = 1
  /\ itemGauge (snd run) = Some 1
  /\ errorCounter (snd run) = 1
  /\ latencyHistogram (snd run) = [1]
  /\ map span_name (spans (tracer (snd run)))
     = ["cartAddHandler"; "cartAddHandler"; "cartRemoveHandler";
        "helloWorldHandler"]%string.
Proof. vm_compute. repeat split. Qed.

(** With libraries that all succeed, [main] reaches the server loop after
    eighteen calls. *)
Example healthy_startup :
  fst (Startup.main Startup.healthy (Startup.start empty_registry)) = Startup.Serving
  /\ length (Startup.calls
               (snd (Startup.main Startup.healthy (Startup.start empty_registry))))
     = 18%nat.
Proof. vm_compute. split; reflexivity. Qed.

(** When the collector cannot be dialled, [main] exits after two calls:
    [grpc.NewClient] and [log.Fatal]. *)
Example startup_without_collector :
  let libs := {| Startup.dial := fun _ => Err (errorString "no such host");
                 Startup.new_resource := fun attrs => Ok attrs;
                 Startup.new_trace_exporter := fun _ => Ok 1%nat;
                 Startup.new_metric_exporter := fun _ => Ok 2%nat;
                 Startup.listen := fun _ => None |} in
  Startup.main libs (Startup.start empty_registry)
  = (Startup.Exited 1,
     Startup.mkProc
       [(Startup.grpc_NewClient "localhost:4317", false);
        (Startup.log_Fatal
           (wrapError "failed to create gRPC connection to collector"
                      (errorString "no such host")), true)]
       empty_registry).
Proof. reflexivity. Qed.

(** ** What one request does *)

(** The span a handler works on is the last one started. *)
Lemma update_span_last l f s : update_span (length l) f (l ++ [s]) = l ++ [f s].
Proof. induction l as [|x l IH]; cbn; [reflexivity | now rewrite IH]. Qed.

Lemma nth_error_last {A} (l : list A) s : nth_error (l ++ [s]) (length l) = Some s.
Proof. induction l as [|x l IH]; cbn; [reflexivity | exact IH]. Qed.

Ltac world_simpl :=
  cbn [fst snd set_tracer cartCount errorCounter latencyHistogram itemGauge
       clock_reads rand_draws tracer spans traces req_Context
       span_end span_name span_trace span_parent span_start span_attrs app].

Ltac run_handler :=
  unfold bind, tracer_Start, errorCounter_Add, span_SetAttributes,
    recordLatencyHistogram, span_End, latencyHistogram_Record, itemGauge_Record,
    get_cartCount, set_cartCount, rand_below_half, ret, bind, time_Now,
    StartSpan, SetAttributes, EndSpan;
  world_simpl; rewrite ?update_span_last; world_simpl.

(** Each handler in closed form: the response it writes and the state it
    leaves. *)
Lemma helloWorldHandler_eq env rw r w :
  helloWorldHandler env rw r w =
  (if hello_fails env w
   then http_Error rw "Internal Server Error" http_StatusInternalServerError
   else Write (WriteHeader rw http_StatusOK) "Hello, World!",
   {| cartCount := cartCount w;
      errorCounter := if hello_fails env w then errorCounter w + 1 else errorCounter w;
      latencyHistogram :=
        (now env (2 + clock_reads w) - now env (1 + clock_reads w)) :: latencyHistogram w;
      itemGauge := itemGauge w;
      tracer :=
        {| spans := spans (tracer w) ++
             [finished_span
                (new_span (now env (clock_reads w)) (req_Context r)
                          "helloWorldHandler" (tracer w))
                (if hello_fails env w
                 then [attribute_Bool "helloWorldHandler.error" true;
                       attribute_Int64 "http.status" http_StatusInternalServerError]
                 else [attribute_Bool "helloWorldHandler.error" false;
                       attribute_Int64 "http.status" http_StatusOK])
                (now env (3 + clock_reads w))];
           traces := match parent_span (req_Context r) (tracer w) with
                     | Some _ => traces (tracer w)
                     | None => S (traces (tracer w))
                     end |};
      clock_reads := (4 + clock_reads w)%nat;
      rand_draws := S (rand_draws w) |}).
Proof.
  destruct r as [ctx], w as [c ec lh ig tr cr rd].
  unfold helloWorldHandler, hello_fails. run_handler.
  destruct (rand_Float64 env rd <? 2 ^ 52); run_handler;
    unfold new_span, finished_span; destruct (parent_span ctx tr) as [[p ps]|];
    reflexivity.
Qed.

Lemma cartAddHandler_eq env rw r w :
  cartAddHandler env rw r w =
  (Write (WriteHeader rw http_StatusOK)
         (cart_message RouteCartAdd (next_count RouteCartAdd (cartCount w))),
   cart_world env RouteCartAdd "cartAddHandler" "cartAddHandler.cartCount" r w).
Proof.
  destruct r as [ctx], w as [c ec lh ig tr cr rd].
  unfold cartAddHandler, cart_world, cart_message, next_count. run_handler.
  unfold new_span, finished_span; destruct (parent_span ctx tr) as [[p ps]|];
    reflexivity.
Qed.

Lemma cartRemoveHandler_eq env rw r w :
  cartRemoveHandler env rw r w =
  (Write (WriteHeader rw http_StatusOK)
         (cart_message RouteCartRemove (next_count RouteCartRemove (cartCount w))),
   cart_world env RouteCartRemove "cartRemoveHandler" "cartRemoveHandler.cartCount" r w).
Proof.
  destruct r as [ctx], w as [c ec lh ig tr cr rd].
  unfold cartRemoveHandler, cart_world, cart_message, next_count. run_handler.
  destruct (c =? 0); cbn [negb]; run_handler;
  unfold new_span, finished_span; destruct (parent_span ctx tr) as [[p ps]|];
    reflexivity.
Qed.

(** The effect of one request on each part of the state. *)
Lemma serve_cartCount env route w :
  cartCount (snd (serve env route w)) = next_count route (cartCount w).
Proof.
  destruct route; unfold serve;
    rewrite ?helloWorldHandler_eq, ?cartAddHandler_eq, ?cartRemoveHandler_eq;
    reflexivity.
Qed.

Lemma serve_itemGauge env route w :
  itemGauge (snd (serve env route w)) =
  match route with
  | RouteHello => itemGauge w
  | _ => Some (next_count route (cartCount w))
  end.
Proof.
  destruct route; unfold serve;
    rewrite ?helloWorldHandler_eq, ?cartAddHandler_eq, ?cartRemoveHandler_eq;
    reflexivity.
Qed.

Lemma serve_errorCounter env route w :
  errorCounter (snd (serve env route w)) =
  match route with
  | RouteHello => if hello_fails env w then errorCounter w + 1 else errorCounter w
  | _ => errorCounter w
  end.
Proof.
  destruct route; unfold serve.
  - rewrite helloWorldHandler_eq. reflexivity.
  - rewrite cartAddHandler_eq. reflexivity.
  - rewrite cartRemoveHandler_eq. reflexivity.
Qed.

Lemma serve_response env route w :
  fst (serve env route w) =
  match route with
  | RouteHello =>
      if hello_fails env w
      then http_Error newResponseWriter "Internal Server Error"
                      http_StatusInternalServerError
      else Write (WriteHeader newResponseWriter http_StatusOK) "Hello, World!"
  | _ => Write (WriteHeader newResponseWriter http_StatusOK)
               (cart_message route (next_count route (cartCount w)))
  end.
Proof.
  destruct route; unfold serve.
  - rewrite helloWorldHandler_eq. reflexivity.
  - rewrite cartAddHandler_eq. reflexivity.
  - rewrite cartRemoveHandler_eq. reflexivity.
Qed.

Lemma serve_tracer env route w :
  exists name attrs (k1 k2 : nat),
    (k1 <= k2)%nat /\
    tracer (snd (serve env route w)) =
    {| spans := spans (tracer w) ++
         [finished_span (new_span (now env (clock_reads w)) None name (tracer w))
                        attrs (now env (k1 + clock_reads w))];
       traces := S (traces (tracer w)) |}
    /\ clock_reads (snd (serve env route w)) = (k2 + clock_reads w)%nat.
Proof.
  destruct route; unfold serve.
  - rewrite helloWorldHandler_eq. do 2 eexists. exists 3%nat, 4%nat.
    split; [lia|]. split; reflexivity.
  - rewrite cartAddHandler_eq. do 2 eexists. exists 1%nat, 2%nat.
    split; [lia|]. split; reflexivity.
  - rewrite cartRemoveHandler_eq. do 2 eexists. exists 1%nat, 2%nat.
    split; [lia|]. split; reflexivity.
Qed.

Lemma serve_all_nil env w : snd (serve_all env [] w) = w.
Proof. reflexivity. Qed.

Lemma serve_all_cons env route rest w :
  snd (serve_all env (route :: rest) w) =
  snd (serve_all env rest (snd (serve env route w))).
Proof.
  cbn [serve_all]. unfold bind, ret.
  destruct (serve env route w) as [resp w1]. cbn [snd].
  destruct (serve_all env rest w1) as [r2 w2]. reflexivity.
Qed.

(** ** Sequential requests and the cart count *)

(** Requests served in sequence act on [cartCount] one after the other. *)
Lemma serve_all_cartCount env routes w :
  cartCount (snd (serve_all env routes w)) =
  fold_left (fun c route => next_count route c) routes (cartCount w).
Proof.
  revert w. induction routes as [|route rest IH]; intros w; [reflexivity|].
  rewrite serve_all_cons, IH, serve_cartCount. reflexivity.
Qed.

(** [int64] addition and subtraction do not wrap inside the range. *)
Lemma wrap_in_range z : Int64.in_range z -> Int64.wrap z = z.
Proof.
  unfold Int64.in_range, Int64.min_int, Int64.max_int, Int64.wrap. intros Hz.
  rewrite Z.mod_small; lia.
Qed.

Lemma count_route_app route l1 l2 :
  count_route route (l1 ++ l2) = (count_route route l1 + count_route route l2)%nat.
Proof. unfold count_route. rewrite List.filter_app, length_app. reflexivity. Qed.

(** Sequentially, the count stays between 0 and the number of additions,
    as long as that number fits an [int64]. *)
Lemma sequential_bounds routes c (n : nat) :
  0 <= c <= Z.of_nat n ->
  Z.of_nat n + Z.of_nat (count_adds routes) <= Int64.max_int ->
  0 <= fold_left (fun c route => next_count route c) routes c
    <= Z.of_nat n + Z.of_nat (count_adds routes).
Proof.
  revert c n. induction routes as [|route rest IH]; intros c n Hc Hn.
  - cbn. unfold count_adds, count_route. cbn. lia.
  - cbn [fold_left].
    change (route :: rest) with ([route] ++ rest) in *.
    unfold count_adds in *. rewrite count_route_app in *.
    unfold Int64.max_int in *.
    destruct route; cbn [next_count].
    + specialize (IH c n). cbn in *. lia.
    + unfold Int64.add. rewrite wrap_in_range
        by (unfold Int64.in_range, Int64.min_int, Int64.max_int; cbn in *; lia).
      specialize (IH (c + 1) (Datatypes.S n)). cbn in *. lia.
    + destruct (Z.eqb_spec c 0) as [->|Hne].
      * specialize (IH 0 n). cbn in *. lia.
      * unfold Int64.sub. rewrite wrap_in_range
          by (unfold Int64.in_range, Int64.min_int, Int64.max_int; cbn in *; lia).
        specialize (IH (c - 1) n). cbn in *. lia.
Qed.

Lemma fold_adds (n : nat) c :
  0 <= c -> c + Z.of_nat n <= Int64.max_int ->
  fold_left (fun c route => next_count route c) (repeat RouteCartAdd n) c
  = c + Z.of_nat n.
Proof.
  revert c. induction n as [|n IH]; intros c Hc Hn.
  - cbn [repeat fold_left]. lia.
  - cbn [repeat fold_left next_count]. unfold Int64.add.
    unfold Int64.max_int in *.
    rewrite wrap_in_range
      by (unfold Int64.in_range, Int64.min_int, Int64.max_int; lia).
    rewrite IH; unfold Int64.max_int; lia.
Qed.

(** C2, as stated, fails: [cartCount] is an [int64], and the 2^63-th
    addition in a row wraps it around to the least [int64]. *)
Lemma cartCount_negative_after_overflow :
  cartCount (snd (serve_all example_env overflowing_adds initial_world))
  = Int64.min_int
  /\ ~ 0 <= cartCount (snd (serve_all example_env overflowing_adds initial_world)).
Proof.
  assert (H : cartCount (snd (serve_all example_env overflowing_adds initial_world))
              = Int64.min_int).
  { rewrite serve_all_cartCount. unfold overflowing_adds.
    replace (Z.to_nat (2 ^ 63)) with (Datatypes.S (Z.to_nat (2 ^ 63 - 1))) by lia.
    cbn [repeat]. rewrite repeat_cons, fold_left_app, fold_adds.
    - cbn [fold_left next_count initial_world cartCount].
      rewrite Z2Nat.id by lia. reflexivity.
    - cbn [initial_world cartCount]. lia.
    - cbn [initial_world cartCount]. unfold Int64.max_int.
      rewrite Z2Nat.id by lia. lia. }
  split; [exact H|]. rewrite H. unfold Int64.min_int. lia.
Qed.

(** C2 (amended): over any sequence of requests served one after the other
    from the initial state, with at most 2^63 - 1 requests to [/cart/add],
    [cartCount] is at every point between 0 and the number of additions so
    far; and [cartRemoveHandler] on an empty cart leaves the count at 0 and
    records 0 to the gauge. *)
Theorem cartCount_never_negative (env : Env) (routes : list Route) :
  Z.of_nat (count_adds routes) <= Int64.max_int ->
  (forall pre post, routes = pre ++ post ->
     0 <= cartCount (snd (serve_all env pre initial_world))
       <= Z.of_nat (count_adds pre))
  /\ (forall w, cartCount w = 0 ->
        cartCount (snd (serve env RouteCartRemove w)) = 0
        /\ itemGauge (snd (serve env RouteCartRemove w)) = Some 0).
Proof.
  intros Hadds. split.
  - intros pre post ->. rewrite serve_all_cartCount.
    unfold count_adds in *. rewrite count_route_app in Hadds.
    pose proof (sequential_bounds pre 0 0) as H. cbn [initial_world cartCount].
    unfold count_adds in H. lia.
  - intros w Hw. rewrite serve_cartCount, serve_itemGauge, Hw. split; reflexivity.
Qed.

(** The theorem at five requests, two of them on an empty cart. *)
Lemma cartCount_never_negative_witness :
  let routes := [RouteCartRemove; RouteCartAdd; RouteCartRemove;
                 RouteCartRemove; RouteCartAdd] in
  Z.of_nat (count_adds routes) <= Int64.max_int
  /\ (forall pre post, routes = pre ++ post ->
        0 <= cartCount (snd (serve_all example_env pre initial_world))
          <= Z.of_nat (count_adds pre))
  /\ (forall w, cartCount w = 0 ->
        cartCount (snd (serve example_env RouteCartRemove w)) = 0
        /\ itemGauge (snd (serve example_env RouteCartRemove w)) = Some 0).
Proof.
  intros routes.
  assert (H : Z.of_nat (count_adds routes) <= Int64.max_int)
    by (vm_compute; discriminate).
  exact (conj H (cartCount_never_negative example_env routes H)).
Defined.

(** Sequentially, from a cart of [c] items, when no removal finds the cart
    empty and the additions fit an [int64]. *)
Lemma sequential_net_sum_from routes c :
  0 <= c ->
  c + Z.of_nat (count_adds routes) <= Int64.max_int ->
  (forall pre post, routes = pre ++ post ->
     Z.of_nat (count_removes pre) <= c + Z.of_nat (count_adds pre)) ->
  fold_left (fun c route => next_count route c) routes c
  = c + Z.of_nat (count_adds routes) - Z.of_nat (count_removes routes).
Proof.
  revert c. induction routes as [|route rest IH]; intros c Hc Hmax Hpre.
  - cbn. lia.
  - assert (Hrest : forall d : Z,
              (forall pre, Z.of_nat (count_removes (route :: pre))
                           <= c + Z.of_nat (count_adds (route :: pre)) ->
                           Z.of_nat (count_removes pre) <= d + Z.of_nat (count_adds pre)) ->
              forall pre post, rest = pre ++ post ->
                Z.of_nat (count_removes pre) <= d + Z.of_nat (count_adds pre)).
    { intros d Hd pre post ->. apply Hd. apply (Hpre (route :: pre) post). reflexivity. }
    pose proof (Hpre [route] rest eq_refl) as Hfirst.
    cbn [fold_left]. unfold Int64.max_int in *.
    destruct route; cbn [next_count].
    + rewrite IH; [| lia | | ].
      * unfold count_adds, count_removes, count_route. cbn. lia.
      * unfold count_adds, count_route in *. cbn in *. lia.
      * apply Hrest. intros pre. unfold count_adds, count_removes, count_route. cbn. lia.
    + unfold Int64.add. rewrite wrap_in_range.
      2:{ unfold Int64.in_range, Int64.min_int, Int64.max_int.
          unfold count_adds, count_route in Hmax. cbn in Hmax. lia. }
      rewrite IH.
      * unfold count_adds, count_removes, count_route. cbn. lia.
      * lia.
      * unfold count_adds, count_route in *. cbn in *. lia.
      * apply Hrest. intros pre. unfold count_adds, count_removes, count_route. cbn. lia.
    + assert (Hne : c <> 0).
      { unfold count_adds, count_removes, count_route in Hfirst. cbn in Hfirst. lia. }
      destruct (Z.eqb_spec c 0) as [?|_]; [contradiction|].
      unfold Int64.sub. rewrite wrap_in_range.
      2:{ unfold Int64.in_range, Int64.min_int, Int64.max_int.
          unfold count_adds, count_route in Hmax. cbn in Hmax. lia. }
      rewrite IH.
      * unfold count_adds, count_removes, count_route. cbn. lia.
      * lia.
      * unfold count_adds, count_route in *. cbn in *. lia.
      * apply Hrest. intros pre. unfold count_adds, count_removes, count_route. cbn. lia.
Qed.

(** ** Interleaved requests *)

Import Race.

(** A handler that runs without another goroutine in its way does to the
    shared memory what the handler of the sequential model does. *)
Lemma run_alone_serve env op w :
  Race.run_alone op (Race.mkShared (cartCount w) (itemGauge w)) =
  Race.mkShared (cartCount (snd (serve env (route_of op) w)))
                (itemGauge (snd (serve env (route_of op) w))).
Proof.
  rewrite serve_cartCount, serve_itemGauge.
  destruct op; cbn [route_of next_count].
  - reflexivity.
  - destruct (cartCount w) as [|p|p]; reflexivity.
Qed.

(** C1, as stated, fails: when the three additions overlap so that each
    loads [cartCount] before any of them stores it, two additions are lost;
    the removal then leaves 0 in the cart and records 0 to the gauge. *)
Lemma three_adds_lose_updates :
  Race.three_adds_then_remove (Race.round_robin 3 8)
  = Some (Race.mkShared 0 (Some 0))
  /\ Race.three_adds_then_remove (Race.round_robin 3 8)
     <> Some (Race.mkShared 2 (Some 2)).
Proof. split; [vm_compute; reflexivity | vm_compute; discriminate]. Qed.

(** C1 (amended): from the initial state, three calls of [cartAddHandler]
    and then one of [cartRemoveHandler], each running to completion before
    the next starts, leave 2 in the cart, and 2 is the last value recorded
    to the gauge; in the interleaving model, this is the outcome of every
    schedule that runs the three additions one whole handler at a time. *)
Theorem three_adds_then_remove_sequential (env : Env) :
  let w := snd (serve_all env
                  [RouteCartAdd; RouteCartAdd; RouteCartAdd; RouteCartRemove]
                  initial_world) in
  cartCount w = 2 /\ itemGauge w = Some 2
  /\ forall a b c : nat,
       (a < 3)%nat -> (b < 3)%nat -> (c < 3)%nat -> a <> b -> b <> c -> a <> c ->
       Race.three_adds_then_remove (Race.alone a 8 ++ Race.alone b 8 ++ Race.alone c 8)
       = Some (Race.mkShared 2 (Some 2)).
Proof.
  intros w. subst w. split; [|split].
  - rewrite serve_all_cartCount. vm_compute. reflexivity.
  - rewrite !serve_all_cons, serve_all_nil, serve_itemGauge, !serve_cartCount.
    vm_compute. reflexivity.
  - intros a b c Ha Hb Hc Hab Hbc Hac.
    destruct a as [|[|[|a]]]; try lia;
    destruct b as [|[|[|b]]]; try lia;
    destruct c as [|[|[|c]]]; try lia; vm_compute; reflexivity.
Qed.

(** The theorem at one serial order of the three additions. *)
Lemma three_adds_then_remove_sequential_witness :
  Race.three_adds_then_remove (Race.alone 2 8 ++ Race.alone 0 8 ++ Race.alone 1 8)
  = Some (Race.mkShared 2 (Some 2)).
Proof.
  apply (three_adds_then_remove_sequential example_env); lia.
Defined.

Lemma nth_error_set_nth {A} (l : list A) n x y :
  nth_error l n = Some y -> nth_error (set_nth n x l) n = Some x.
Proof.
  revert n. induction l as [|a l IH]; intros [|n]; cbn; try discriminate; auto.
Qed.

Lemma set_nth_set_nth {A} (l : list A) n x y :
  set_nth n x (set_nth n y l) = set_nth n x l.
Proof.
  revert n. induction l as [|a l IH]; intros [|n]; cbn; try reflexivity.
  now rewrite IH.
Qed.

Lemma set_nth_same {A} (l : list A) n x :
  nth_error l n = Some x -> set_nth n x l = l.
Proof.
  revert n. induction l as [|a l IH]; intros [|n]; cbn; try discriminate.
  - now intros [= ->].
  - intros H. now rewrite IH.
Qed.

Lemma run_alone_solo n : forall tid cfg t,
  nth_error (threads cfg) tid = Some t ->
  run (alone tid n) cfg =
  mkConfig (snd (solo n t (shared cfg))) (set_nth tid (fst (solo n t (shared cfg))) (threads cfg)).
Proof.
  induction n as [|n IH]; intros tid cfg t Ht.
  - cbn. rewrite set_nth_same by exact Ht. destruct cfg; reflexivity.
  - cbn [alone repeat run fold_left solo]. unfold step at 2. rewrite Ht.
    destruct (code t) as [|i rest] eqn:Ecode.
    + fold (alone tid n). change (fold_left step (alone tid n) cfg) with (run (alone tid n) cfg).
      rewrite (IH tid cfg t Ht).
      destruct n; cbn [solo]; rewrite ?Ecode; reflexivity.
    + destruct (exec i rest t (shared cfg)) as [t' sh'] eqn:Eexec.
      fold (alone tid n).
      change (fold_left step (alone tid n) ?c) with (run (alone tid n) c).
      rewrite (IH tid _ t'); cbn [threads shared].
      * rewrite set_nth_set_nth. reflexivity.
      * eapply nth_error_set_nth, Ht.
Qed.

(** A handler that runs alone adds to or takes from the count it finds. *)
Lemma solo_handler op rest t sh :
  code t = code_of op ++ rest ->
  let c := next_count (route_of op) (sh_cartCount sh) in
  solo (steps_of op (sh_cartCount sh)) t sh =
  (mkThread rest c (attrs t ++ [c]) (replies t ++ [c]), mkShared c (Some c)).
Proof.
  destruct t as [cd l a r], sh as [c g]. cbn [code]. intros ->.
  destruct op; cbn [route_of next_count sh_cartCount].
  - reflexivity.
  - destruct c as [|p|p]; reflexivity.
Qed.

Lemma take_next_thread tid : forall work threads0 op work',
  map code threads0 = map (flat_map code_of) work ->
  take_next tid work = Some (op, work') ->
  exists t rest,
    nth_error threads0 tid = Some t
    /\ code t = code_of op ++ rest
    /\ forall t', code t' = rest ->
         map code (set_nth tid t' threads0) = map (flat_map code_of) work'.
Proof.
  induction tid as [|tid IH]; intros work threads0 op work' Hmap Hnext.
  - destruct work as [|[|op0 ops] others]; cbn in Hnext; try discriminate.
    injection Hnext as <- <-.
    destruct threads0 as [|t ts]; cbn in Hmap; [discriminate|].
    injection Hmap as Hcode Hrest.
    exists t, (flat_map code_of ops). split; [reflexivity|]. split; [exact Hcode|].
    intros t' Ht'. cbn. rewrite Ht', Hrest. reflexivity.
  - destruct work as [|ops others]; [discriminate|].
    cbn [take_next] in Hnext.
    assert (Hnext' : match take_next tid others with
                     | Some (op, others') => Some (op, ops :: others')
                     | None => None
                     end = Some (op, work')) by (destruct ops; exact Hnext).
    clear Hnext.
    destruct (take_next tid others) as [[op1 others']|] eqn:E; [|discriminate].
    injection Hnext' as <- <-.
    destruct threads0 as [|t0 ts]; cbn in Hmap; [discriminate|].
    injection Hmap as Hcode Hrest.
    destruct (IH others ts op1 others' Hrest E) as (t & rest & Hnth & Hc & Hset).
    exists t, rest. split; [exact Hnth|]. split; [exact Hc|].
    intros t' Ht'. cbn. rewrite Hcode, (Hset t' Ht'). reflexivity.
Qed.

Lemma run_app s1 s2 cfg : run (s1 ++ s2) cfg = run s2 (run s1 cfg).
Proof. unfold run. apply fold_left_app. Qed.

(** A serial order runs the handlers it serves one after the other. *)
Lemma run_serial order : forall work cfg,
  has_work cfg work ->
  let cfg' := run (serial order work (sh_cartCount (shared cfg))) cfg in
  has_work cfg' (remaining order work)
  /\ sh_cartCount (shared cfg')
     = fold_left (fun c op => next_count (route_of op) c) (served order work)
                 (sh_cartCount (shared cfg)).
Proof.
  induction order as [|tid order IH]; intros work cfg Hwork.
  - split; [exact Hwork | reflexivity].
  - cbn zeta. cbn [serial served remaining].
    destruct (take_next tid work) as [[op work']|] eqn:E; [|apply IH, Hwork].
    destruct (take_next_thread tid work (threads cfg) op work' Hwork E)
      as (t & rest & Hnth & Hcode & Hset).
    rewrite run_app, (run_alone_solo _ tid cfg t Hnth).
    rewrite (solo_handler op rest t (shared cfg) Hcode). cbn [fst snd].
    set (c := next_count (route_of op) (sh_cartCount (shared cfg))).
    set (cfg1 := mkConfig _ _).
    destruct (IH work' cfg1) as [H1 H2].
    + unfold has_work, cfg1. cbn [threads]. apply Hset. reflexivity.
    + unfold cfg1 in H1, H2 at 1. cbn [shared sh_cartCount] in H1, H2.
      split; [exact H1|]. rewrite H2. reflexivity.
Qed.

Lemma fold_left_route_of ops c :
  fold_left (fun c op => next_count (route_of op) c) ops c
  = fold_left (fun c route => next_count route c) (map route_of ops) c.
Proof.
  revert c. induction ops as [|op ops IH]; intros c; [reflexivity|]. cbn. apply IH.
Qed.

Lemma net_perm ops ops' : Permutation ops ops' -> net ops = net ops'.
Proof.
  induction 1 as [|op l l' _ IH|op1 op2 l|l1 l2 l3 _ IH1 _ IH2];
    unfold net in *; cbn [fold_right].
  - reflexivity.
  - rewrite IH. reflexivity.
  - destruct op1, op2; lia.
  - congruence.
Qed.

Lemma net_app ops ops' : net (ops ++ ops') = net ops + net ops'.
Proof.
  induction ops as [|op ops IH]; unfold net in *; cbn [app fold_right]; [lia|].
  rewrite IH. destruct op; lia.
Qed.

Lemma net_counts ops :
  net ops = Z.of_nat (count_adds (map route_of ops))
            - Z.of_nat (count_removes (map route_of ops)).
Proof.
  induction ops as [|op ops IH]; [reflexivity|].
  cbn [net fold_right map]. fold (net ops). rewrite IH.
  unfold count_adds, count_removes, count_route.
  destruct op; cbn [route_of List.filter length]; lia.
Qed.

Lemma take_next_perm tid : forall work op work',
  take_next tid work = Some (op, work') ->
  Permutation (concat work) (op :: concat work').
Proof.
  induction tid as [|tid IH]; intros work op work' Hnext.
  - destruct work as [|[|op0 ops] others]; cbn in Hnext; try discriminate.
    injection Hnext as <- <-. reflexivity.
  - destruct work as [|ops others]; [discriminate|].
    cbn [take_next] in Hnext.
    assert (Hnext' : match take_next tid others with
                     | Some (op, others') => Some (op, ops :: others')
                     | None => None
                     end = Some (op, work')) by (destruct ops; exact Hnext).
    clear Hnext.
    destruct (take_next tid others) as [[op1 others']|] eqn:E; [|discriminate].
    injection Hnext' as <- <-. cbn [concat].
    rewrite (IH others op1 others' E). symmetry. apply Permutation_middle.
Qed.

Lemma served_perm order : forall work,
  Permutation (concat work) (served order work ++ concat (remaining order work)).
Proof.
  induction order as [|tid order IH]; intros work; [reflexivity|].
  cbn [served remaining].
  destruct (take_next tid work) as [[op work']|] eqn:E; [|apply IH].
  rewrite (take_next_perm tid work op work' E). cbn [app].
  apply perm_skip, IH.
Qed.

Lemma finished_no_work cfg work :
  has_work cfg work -> finished cfg = true -> concat work = [].
Proof.
  unfold has_work, finished. destruct cfg as [sh ts]. cbn [threads].
  revert work. induction ts as [|t ts IH]; intros [|ops work] Hmap Hfin;
    cbn in Hmap; try discriminate; [reflexivity|].
  injection Hmap as Hcode Hrest. cbn [forallb] in Hfin.
  apply andb_prop in Hfin as [Ht Hts].
  cbn [concat]. rewrite (IH work Hrest Hts), app_nil_r.
  destruct ops as [|op ops]; [reflexivity|].
  rewrite Hcode in Ht. destruct op; discriminate Ht.
Qed.

(** A serial order that leaves no goroutine with work to do has served
    every operation, and the cart holds what a sequential run of these
    operations gives. *)
Lemma serial_count work order :
  let cfg := run (serial order work 0) (spawn work shared0) in
  finished cfg = true ->
  net_sum work = net (served order work)
  /\ sh_cartCount (shared cfg)
     = fold_left (fun c route => next_count route c)
                 (map route_of (served order work)) 0.
Proof.
  intros cfg Hfin.
  assert (Hwork : has_work (spawn work shared0) work).
  { unfold has_work, spawn. cbn [threads]. rewrite map_map. reflexivity. }
  destruct (run_serial order work (spawn work shared0) Hwork) as [Hrem Hcount].
  cbn [spawn shared shared0 sh_cartCount] in Hrem, Hcount. fold cfg in Hrem, Hcount.
  split.
  - unfold net_sum.
    rewrite (net_perm _ _ (served_perm order work)), net_app.
    rewrite (finished_no_work cfg _ Hrem Hfin). cbn. lia.
  - rewrite Hcount. apply fold_left_route_of.
Qed.

(** C5, as stated, fails: two goroutines that each add one item, with
    both loads before both stores, leave 1 in the cart; the net sum of the
    operations is 2. *)
Lemma concurrent_adds_lose_update :
  let work := [[Race.Add]; [Race.Add]] in
  let cfg := Race.run (Race.round_robin 2 8) (Race.spawn work Race.shared0) in
  Race.finished cfg = true
  /\ Race.sh_cartCount (Race.shared cfg) = 1
  /\ Race.net_sum work = 2
  /\ Race.sh_cartCount (Race.shared cfg) <> Race.net_sum work.
Proof.
  vm_compute. repeat split; discriminate.
Qed.

(** In the sequential model: requests served one after the other, none of
    them a removal from an empty cart, leave the additions minus the
    removals in the cart. *)
Lemma requests_net_sum (env : Env) (routes : list Route) :
  Z.of_nat (count_adds routes) <= Int64.max_int ->
  (forall pre post, routes = pre ++ post ->
     (count_removes pre <= count_adds pre)%nat) ->
  cartCount (snd (serve_all env routes initial_world))
  = Z.of_nat (count_adds routes) - Z.of_nat (count_removes routes).
Proof.
  intros Hmax Hpre. rewrite serve_all_cartCount.
  rewrite sequential_net_sum_from; cbn [initial_world cartCount]; try lia.
  intros pre post E. specialize (Hpre pre post E). lia.
Qed.

(** C5 (amended): any number of goroutines, each with its own list of
    additions and removals to perform, run from an empty cart under a
    schedule that lets the handlers run one at a time, in any order, until
    no work is left. If no removal finds the cart empty and there are at
    most 2^63 - 1 additions, the final [cartCount] is the net sum of the
    operations: no update is lost. *)
Theorem serial_net_sum (work : list (list Op)) (order : list nat) :
  let cfg := run (serial order work 0) (spawn work shared0) in
  let routes := map route_of (served order work) in
  finished cfg = true ->
  Z.of_nat (count_adds routes) <= Int64.max_int ->
  (forall pre post, routes = pre ++ post ->
     (count_removes pre <= count_adds pre)%nat) ->
  sh_cartCount (shared cfg) = net_sum work.
Proof.
  intros cfg routes Hfin Hmax Hpre.
  destruct (serial_count work order Hfin) as [Hnet Hcount].
  fold cfg in Hcount. fold routes in Hcount.
  rewrite Hcount, Hnet, net_counts. fold routes.
  rewrite sequential_net_sum_from; try lia.
  intros pre post E. specialize (Hpre pre post E). lia.
Qed.

(** The theorem for two goroutines with two operations each, served in
    the order 1, 0, 0, 1: the cart holds 2. *)
Lemma serial_net_sum_witness :
  let work := [[Add; Remove]; [Add; Add]] in
  let order := [1; 0; 0; 1]%nat in
  sh_cartCount (shared (run (serial order work 0) (spawn work shared0)))
  = net_sum work.
Proof.
  intros work order. apply (serial_net_sum work order).
  - vm_compute. reflexivity.
  - vm_compute. discriminate.
  - intros pre post E.
    change (map route_of (served order work))
      with [RouteCartAdd; RouteCartAdd; RouteCartRemove; RouteCartAdd] in E.
    repeat (destruct pre as [|? pre];
            [vm_compute; lia
            | cbn [app] in E; first [discriminate E | injection E as <- E]]).
Defined.

(** Without the proviso on removals the net sum is not what the cart
    holds, even sequentially: a removal from an empty cart removes
    nothing. *)
Example removal_from_empty_cart :
  let work := [[Remove; Add]] in
  let cfg := run (serial [0; 0]%nat work 0) (spawn work shared0) in
  finished cfg = true /\ sh_cartCount (shared cfg) = 1 /\ net_sum work = 0.
Proof. vm_compute. repeat split. Qed.

(** ** The hello handler and the error counter *)

(** C10: every execution of [helloWorldHandler] ends in exactly one of two
    ways. Either the status is 500, [errorCounter] has grown by exactly 1
    and the span of the request carries [helloWorldHandler.error = true];
    or the status is 200, the body is "Hello, World!", [errorCounter] is
    unchanged and the span carries [helloWorldHandler.error = false]. In
    both cases exactly one latency is added to the histogram. *)
Theorem helloWorldHandler_outcomes (env : Env) (r : Request) (w : World) :
  let resp := fst (helloWorldHandler env newResponseWriter r w) in
  let w' := snd (helloWorldHandler env newResponseWriter r w) in
  let error_attr := span_attr "helloWorldHandler.error" (length (spans (tracer w))) w' in
  let failure :=
    rw_status resp = Some 500
    /\ errorCounter w' = errorCounter w + 1
    /\ error_attr = Some (BoolValue true) in
  let success :=
    rw_status resp = Some 200
    /\ rw_body resp = "Hello, World!"%string
    /\ errorCounter w' = errorCounter w
    /\ error_attr = Some (BoolValue false) in
  (failure \/ success) /\ ~ (failure /\ success)
  /\ exists latency, latencyHistogram w' = latency :: latencyHistogram w.
Proof.
  rewrite helloWorldHandler_eq. cbn zeta. unfold span_attr.
  cbn [fst snd tracer spans errorCounter latencyHistogram].
  rewrite nth_error_last. unfold finished_span. cbn [span_attrs].
  destruct (hello_fails env w); (split; [|split]).
  - left. repeat split.
  - intros [_ (H & _)]. discriminate H.
  - eexists. reflexivity.
  - right. repeat split.
  - intros [(H & _) _]. discriminate H.
  - eexists. reflexivity.
Qed.

(** The counter never goes down, whatever is added to it. *)
Lemma errorCounter_add_all deltas w :
  errorCounter w <= errorCounter (snd (add_all deltas w)).
Proof.
  revert w. induction deltas as [|delta rest IH]; intros w; [cbn; lia|].
  cbn [add_all]. unfold bind, errorCounter_Add at 1.
  etransitivity; [|apply IH]. cbn [errorCounter]. unfold Counter_Add.
  destruct (Z.ltb_spec delta 0); lia.
Qed.

Lemma errorCounter_serve_all env routes w :
  errorCounter w <= errorCounter (snd (serve_all env routes w)).
Proof.
  revert w. induction routes as [|route rest IH]; intros w; [cbn; lia|].
  rewrite serve_all_cons. etransitivity; [|apply IH].
  rewrite serve_errorCounter. destruct route; [destruct (hello_fails env w)| |]; lia.
Qed.

(** C6: [Counter.Add] with a negative delta fails with [InvalidArgument]
    and leaves the stored value as it was; with a delta of 0 or more it is
    accepted and adds the delta. Hence the stored value never decreases:
    not over any sequence of calls to [errorCounter.Add], whatever their
    deltas, and not over any sequence of requests to the service. *)
Theorem Counter_Add_monotone (stored delta : Z) (deltas : list Z)
    (env : Env) (routes : list Route) (w : World) :
  (delta < 0 ->
     Counter_Add stored delta = Err InvalidArgument
     /\ errorCounter (snd (errorCounter_Add delta w)) = errorCounter w)
  /\ (0 <= delta ->
        Counter_Add stored delta = Ok (stored + delta)
        /\ errorCounter (snd (errorCounter_Add delta w)) = errorCounter w + delta)
  /\ errorCounter w <= errorCounter (snd (add_all deltas w))
  /\ errorCounter w <= errorCounter (snd (serve_all env routes w)).
Proof.
  split; [|split; [|split]].
  - intros Hneg. unfold errorCounter_Add, Counter_Add. cbn [snd errorCounter].
    destruct (Z.ltb_spec delta 0); [split; reflexivity | lia].
  - intros Hpos. unfold errorCounter_Add, Counter_Add. cbn [snd errorCounter].
    destruct (Z.ltb_spec delta 0); [lia | split; reflexivity].
  - apply errorCounter_add_all.
  - apply errorCounter_serve_all.
Qed.

(** The theorem at a delta of -1. *)
Lemma Counter_Add_monotone_witness :
  Counter_Add 5 (-1) = Err InvalidArgument
  /\ errorCounter (snd (errorCounter_Add (-1) initial_world)) = errorCounter initial_world.
Proof.
  destruct (Counter_Add_monotone 5 (-1) [] example_env [] initial_world) as [H _].
  apply H. lia.
Defined.

(** ** Spans *)

(** The invariant holds at start and is kept by every call to the tracer. *)
Lemma RecInv_empty b : RecInv b empty_recorder.
Proof. split; cbn; try contradiction. intros t. reflexivity. Qed.

Lemma RecInv_weaken b b' r : b <= b' -> RecInv b r -> RecInv b' r.
Proof.
  intros Hb [H1 H2 H3 H4]. split; auto. intros s Hs. specialize (H1 s Hs). lia.
Qed.

Lemma roots_app t l1 l2 : roots t (l1 ++ l2) = (roots t l1 + roots t l2)%nat.
Proof. unfold roots. rewrite List.filter_app, length_app. reflexivity. Qed.

Lemma parent_span_In parent r p ps :
  parent_span parent r = Some (p, ps) -> In ps (spans r).
Proof.
  destruct parent as [q|]; cbn; [|discriminate].
  destruct (nth_error (spans r) q) as [s|] eqn:E; cbn; [|discriminate].
  intros [= _ <-]. eapply nth_error_In, E.
Qed.

Lemma StartSpan_inv b t parent name r :
  b <= t -> RecInv b r -> RecInv t (snd (StartSpan t parent name r)).
Proof.
  intros Hb [H1 H2 H3 H4]. unfold StartSpan, new_span. cbn [snd].
  destruct (parent_span parent r) as [[p ps]|] eqn:E; split; cbn [spans traces].
  - intros s [Hs|[<-|[]]]%in_app_or; [specialize (H1 s Hs); lia | cbn; lia].
  - intros s e [Hs|[<-|[]]]%in_app_or; [eauto | cbn; discriminate].
  - intros s [Hs|[<-|[]]]%in_app_or; [auto | cbn; eapply H3, parent_span_In, E].
  - intros t'. rewrite roots_app, H4. unfold roots, is_root_of.
    cbn [List.filter span_trace span_parent]. rewrite andb_false_r.
    cbn [length]. lia.
  - intros s [Hs|[<-|[]]]%in_app_or; [specialize (H1 s Hs); lia | cbn; lia].
  - intros s e [Hs|[<-|[]]]%in_app_or; [eauto | cbn; discriminate].
  - intros s [Hs|[<-|[]]]%in_app_or; [specialize (H3 s Hs); lia | cbn; lia].
  - intros t'. rewrite roots_app, H4. unfold roots, is_root_of.
    cbn [List.filter span_trace span_parent]. rewrite andb_true_r.
    destruct (Nat.eqb_spec (traces r) t') as [Heq|Hne]; cbn [length];
      destruct (Nat.ltb_spec t' (traces r)), (Nat.ltb_spec t' (S (traces r))); lia.
Qed.

(** Updating a span in place by a function that keeps what the invariant
    looks at. *)
Lemma update_span_In id f l s' :
  In s' (update_span id f l) -> In s' l \/ exists s, In s l /\ s' = f s.
Proof.
  revert id. induction l as [|x l IH]; intros id; [destruct id; cbn; tauto|].
  destruct id as [|id]; cbn.
  - intros [<-|H]; [right; exists x; auto | auto].
  - intros [<-|H]; [auto|]. destruct (IH _ H) as [?|(s & ? & ?)]; [auto|].
    right; exists s; auto.
Qed.

Lemma update_span_roots id f l t :
  (forall s, span_trace (f s) = span_trace s /\ span_parent (f s) = span_parent s) ->
  roots t (update_span id f l) = roots t l.
Proof.
  intros Hf. revert id. induction l as [|x l IH]; intros id; [destruct id; reflexivity|].
  assert (E : is_root_of t (f x) = is_root_of t x)
    by (unfold is_root_of; destruct (Hf x) as [-> ->]; reflexivity).
  destruct id as [|id]; unfold roots in *; cbn [update_span List.filter].
  - rewrite E. destruct (is_root_of t x); reflexivity.
  - destruct (is_root_of t x); cbn [length]; rewrite IH; reflexivity.
Qed.

Lemma update_span_inv b f id r :
  (forall s, span_trace (f s) = span_trace s /\ span_parent (f s) = span_parent s
             /\ span_start (f s) = span_start s) ->
  (forall s e, span_start s <= b ->
               (forall e', span_end s = Some e' -> span_start s <= e') ->
               span_end (f s) = Some e -> span_start s <= e) ->
  RecInv b r ->
  RecInv b {| spans := update_span id f (spans r); traces := traces r |}.
Proof.
  intros Hf Hend [H1 H2 H3 H4]. split; cbn [spans traces].
  - intros s' [Hs|(s & Hs & ->)]%update_span_In; [auto|].
    destruct (Hf s) as (_ & _ & ->). auto.
  - intros s' e [Hs|(s & Hs & ->)]%update_span_In; [eauto|].
    destruct (Hf s) as (_ & _ & ->). intros He. eapply Hend; eauto.
  - intros s' [Hs|(s & Hs & ->)]%update_span_In; [auto|].
    destruct (Hf s) as (-> & _). auto.
  - intros t. rewrite update_span_roots; [apply H4|]. intros s. destruct (Hf s); tauto.
Qed.

Lemma SetAttributes_inv b id kvs r : RecInv b r -> RecInv b (SetAttributes id kvs r).
Proof.
  apply update_span_inv.
  - intros s. destruct (span_end s); cbn; auto.
  - intros s e Hs He. destruct (span_end s) eqn:E; cbn; [rewrite E; auto | discriminate].
Qed.

Lemma EndSpan_inv b t id r : b <= t -> RecInv b r -> RecInv t (EndSpan t id r).
Proof.
  intros Hb Hinv. apply (RecInv_weaken b t) in Hinv; [|exact Hb].
  revert Hinv. apply update_span_inv.
  - intros s. destruct (span_end s); cbn; auto.
  - intros s e Hs He. destruct (span_end s) eqn:E; cbn; [rewrite E; auto|].
    intros [= <-]. exact Hs.
Qed.

Lemma apply_op_inv b t op r : b <= t -> RecInv b r -> RecInv t (apply_op t op r).
Proof.
  intros Hb Hinv. destruct op; cbn [apply_op].
  - apply (StartSpan_inv b); assumption.
  - apply SetAttributes_inv, (RecInv_weaken b); assumption.
  - apply (EndSpan_inv b); assumption.
Qed.

Lemma run_ops_inv env :
  monotone_clock env ->
  forall ops k b r, b <= now env k -> RecInv b r ->
  exists b', RecInv b' (run_ops env k ops r).
Proof.
  intros Hmono. induction ops as [|op rest IH]; intros k b r Hb Hinv.
  - exists b. exact Hinv.
  - cbn [run_ops]. apply (IH (S k) (now env k)).
    + apply Hmono. lia.
    + apply (apply_op_inv b); assumption.
Qed.

(** The span a handler leaves behind is the one opened by [StartSpan],
    given its attributes by [SetAttributes] and closed by [EndSpan]. *)
Lemma handler_span t e ctx name attrs r :
  {| spans := spans r ++ [finished_span (new_span t ctx name r) attrs e];
     traces := match parent_span ctx r with
               | Some _ => traces r
               | None => S (traces r)
               end |}
  = EndSpan e (length (spans r))
      (SetAttributes (length (spans r)) attrs (snd (StartSpan t ctx name r))).
Proof.
  unfold EndSpan, SetAttributes, StartSpan. cbn [snd spans traces].
  rewrite !update_span_last. unfold new_span, finished_span.
  destruct (parent_span ctx r) as [[p ps]|]; reflexivity.
Qed.

Lemma handler_span_inv b t e ctx name attrs r :
  b <= t -> t <= e -> RecInv b r ->
  RecInv e {| spans := spans r ++ [finished_span (new_span t ctx name r) attrs e];
              traces := match parent_span ctx r with
                        | Some _ => traces r
                        | None => S (traces r)
                        end |}.
Proof.
  intros Hb He Hinv. rewrite handler_span.
  apply (EndSpan_inv t); [exact He|].
  apply SetAttributes_inv, (StartSpan_inv b); assumption.
Qed.

Lemma serve_quiescent env route w :
  monotone_clock env -> quiescent env w -> quiescent env (snd (serve env route w)).
Proof.
  intros Hmono [Hinv Hclosed]. unfold quiescent.
  destruct (serve_tracer env route w) as (name & attrs & k1 & k2 & Hk & -> & ->).
  split.
  - apply (RecInv_weaken (now env (k1 + clock_reads w))); [apply Hmono; lia|].
    apply (handler_span_inv (now env (clock_reads w)) _ _ None);
      [lia | apply Hmono; lia | exact Hinv].
  - cbn [spans]. intros s [Hs|[<-|[]]]%in_app_or; [auto|].
    eexists. reflexivity.
Qed.

Lemma serve_all_quiescent env routes w :
  monotone_clock env -> quiescent env w ->
  quiescent env (snd (serve_all env routes w)).
Proof.
  intros Hmono. revert w. induction routes as [|route rest IH]; intros w Hw.
  - exact Hw.
  - rewrite serve_all_cons. apply IH, serve_quiescent; assumption.
Qed.

Lemma serve_all_spans env routes w :
  length (spans (tracer (snd (serve_all env routes w))))
  = (length (spans (tracer w)) + length routes)%nat.
Proof.
  revert w. induction routes as [|route rest IH]; intros w.
  - cbn. lia.
  - rewrite serve_all_cons, IH.
    destruct (serve_tracer env route w) as (name & attrs & k1 & k2 & Hk & -> & _).
    cbn [spans length]. rewrite length_app. cbn [length]. lia.
Qed.

Lemma quiescent_initial env : quiescent env initial_world.
Proof.
  split; [apply (RecInv_empty (now env 0)) | cbn; contradiction].
Qed.

(** C9: with a clock that does not go back, after any sequence of
    [StartSpan], [SetAttributes] and [EndSpan] calls, nested or not, no
    span ends before it started, every span belongs to a trace that was
    opened, and every trace has exactly one root span. In this program,
    where each handler starts one span and ends it when it returns, after
    any sequence of requests every span is closed, with an end not before
    its start, every trace has exactly one root span, and there is one span
    per request. *)
Theorem spans_well_formed (env : Env) (ops : list SpanOp) (routes : list Route) :
  monotone_clock env ->
  let r := run_ops env 0 ops empty_recorder in
  let p := tracer (snd (serve_all env routes initial_world)) in
  (forall s e, In s (spans r) -> span_end s = Some e -> span_start s <= e)
  /\ (forall t, (t < traces r)%nat -> roots t (spans r) = 1%nat)
  /\ (forall s, In s (spans r) -> (span_trace s < traces r)%nat)
  /\ (forall s, In s (spans p) -> exists e, span_end s = Some e /\ span_start s <= e)
  /\ (forall t, (t < traces p)%nat -> roots t (spans p) = 1%nat)
  /\ (forall s, In s (spans p) -> (span_trace s < traces p)%nat)
  /\ length (spans p) = length routes.
Proof.
  intros Hmono r p.
  destruct (run_ops_inv env Hmono ops 0%nat (now env 0) empty_recorder)
    as [b [_ G2 G3 G4]]; [lia | apply RecInv_empty |].
  destruct (serve_all_quiescent env routes initial_world Hmono (quiescent_initial env))
    as [[_ P2 P3 P4] Pclosed].
  fold r in G2, G3, G4. fold p in P2, P3, P4, Pclosed.
  repeat split.
  - exact G2.
  - intros t Ht. rewrite G4. rewrite (proj2 (Nat.ltb_lt _ _)) by exact Ht. reflexivity.
  - exact G3.
  - intros s Hs. destruct (Pclosed s Hs) as [e He]. exists e. split; eauto.
  - intros t Ht. rewrite P4. rewrite (proj2 (Nat.ltb_lt _ _)) by exact Ht. reflexivity.
  - exact P3.
  - unfold p. rewrite serve_all_spans. reflexivity.
Qed.

(** The theorem for a clock that advances by one at each reading, a span
    with a child, and three requests. *)
Lemma spans_well_formed_witness :
  let ops := [OpStartSpan None "op"; OpStartSpan (Some 0%nat) "child";
              OpSetAttributes 0 [attribute_Bool "status" true];
              OpEndSpan 1; OpEndSpan 0] in
  let routes := [RouteHello; RouteCartAdd; RouteCartRemove] in
  let r := run_ops example_env 0 ops empty_recorder in
  let p := tracer (snd (serve_all example_env routes initial_world)) in
  (forall s e, In s (spans r) -> span_end s = Some e -> span_start s <= e)
  /\ (forall t, (t < traces r)%nat -> roots t (spans r) = 1%nat)
  /\ (forall s, In s (spans r) -> (span_trace s < traces r)%nat)
  /\ (forall s, In s (spans p) -> exists e, span_end s = Some e /\ span_start s <= e)
  /\ (forall t, (t < traces p)%nat -> roots t (spans p) = 1%nat)
  /\ (forall s, In s (spans p) -> (span_trace s < traces p)%nat)
  /\ length (spans p) = length routes.
Proof.
  intros ops routes. apply (spans_well_formed example_env ops routes).
  intros i j Hij. cbn [now example_env]. lia.
Defined.

(** ** Startup *)

(** Case analysis on a run of [main]: one case for each library call that
    may fail, in the order of the calls, and one for the server loop. *)
Ltac main_simpl :=
  cbn [Startup.calls Startup.meter_state app is_ok fst snd].

Ltac main_step :=
  main_simpl;
  first
    [ match goal with
      | |- context [Startup.dial ?l ?u] => destruct (Startup.dial l u) eqn:?
      end
    | match goal with
      | |- context [Startup.new_resource ?l ?a] =>
          destruct (Startup.new_resource l a) eqn:?
      end
    | match goal with
      | |- context [Startup.new_trace_exporter ?l ?c] =>
          destruct (Startup.new_trace_exporter l c) eqn:?
      end
    | match goal with
      | |- context [Startup.new_metric_exporter ?l ?c] =>
          destruct (Startup.new_metric_exporter l c) eqn:?
      end
    | match goal with
      | |- context [register ?k ?n ?d ?u ?c ?s] =>
          destruct (register k n d u c s) as [[?|?] ?] eqn:?
      end
    | match goal with
      | |- context [Startup.listen ?l ?a] => destruct (Startup.listen l a) eqn:?
      end ].

Ltac main_cases :=
  unfold Startup.main, Startup.initGrpcConn, Startup.initTraceProvider,
    Startup.initMeterProvider, Startup.check, Startup.lib, Startup.meter_new,
    Startup.call, Startup.log_Fatal_, Startup.main_bind, Startup.main_ret,
    Startup.start;
  repeat main_step; main_simpl.

(** C7: in every run of [main], whatever the libraries answer, the process
    asks for a gRPC connection exactly once; the trace exporter and the
    metric exporter are only ever built on the connection that call
    returned; and a process that reaches the server loop has built both on
    it. *)
Theorem one_connection_for_both_exporters {S} `{Meter S}
    (libs : Startup.Libs) (st : S) :
  let status := fst (Startup.main libs (Startup.start st)) in
  let p := snd (Startup.main libs (Startup.start st)) in
  dials p = 1%nat
  /\ (forall conn ok, In (Startup.otlptracegrpc_New conn, ok) (Startup.calls p) ->
        Startup.dial libs Startup.collectorURL = Ok conn)
  /\ (forall conn ok, In (Startup.otlpmetricgrpc_New conn, ok) (Startup.calls p) ->
        Startup.dial libs Startup.collectorURL = Ok conn)
  /\ (status = Startup.Serving ->
        exists conn,
          Startup.dial libs Startup.collectorURL = Ok conn
          /\ In (Startup.otlptracegrpc_New conn, true) (Startup.calls p)
          /\ In (Startup.otlpmetricgrpc_New conn, true) (Startup.calls p)).
Proof.
  cbn zeta. main_cases.
  all: repeat split; try (intros; discriminate).
  all: try (intros conn ok Hin; cbn [In] in Hin;
            repeat (destruct Hin as [Hin|Hin]; [try discriminate Hin|]);
            try contradiction; congruence).
  all: intros _; eexists; split; [reflexivity|]; cbn [In]; tauto.
Qed.

(** The theorem when every library call succeeds. *)
Lemma one_connection_for_both_exporters_witness :
  exists conn,
    Startup.dial Startup.healthy Startup.collectorURL = Ok conn
    /\ In (Startup.otlptracegrpc_New conn, true)
          (Startup.calls (snd (Startup.main Startup.healthy (Startup.start empty_registry))))
    /\ In (Startup.otlpmetricgrpc_New conn, true)
          (Startup.calls (snd (Startup.main Startup.healthy (Startup.start empty_registry)))).
Proof.
  destruct (one_connection_for_both_exporters (H := SpecMeter) Startup.healthy
              empty_registry) as (_ & _ & _ & H).
  apply H. vm_compute. reflexivity.
Defined.

(** C8: whatever the libraries answer, [main] ends in [os.Exit(1)] or in
    the server loop, and it ends in [os.Exit(1)], right after [log.Fatal],
    as soon as one of its library calls fails: the gRPC connection, the
    resource, either exporter, or the registration of the counter, the
    histogram or the gauge. In the handlers, the response depends on the
    cart count and on the random draw only, never on the state of the
    instruments or of the tracer, and its status is 200 unless
    [helloWorldHandler] draws its simulated error. *)
Theorem startup_failures_are_fatal {S} `{Meter S}
    (libs : Startup.Libs) (st : S) (env : Env) (route : Route) (w1 w2 : World) :
  let status := fst (Startup.main libs (Startup.start st)) in
  let p := snd (Startup.main libs (Startup.start st)) in
  (status = Startup.Exited 1 \/ status = Startup.Serving)
  /\ ((exists c, In (c, false) (Startup.calls p)) ->
        status = Startup.Exited 1
        /\ exists e, last (Startup.calls p) = Some (Startup.log_Fatal e, true))
  /\ (is_ok (Startup.dial libs Startup.collectorURL) = false ->
        status = Startup.Exited 1)
  /\ (is_ok (Startup.new_resource libs resource_attrs) = false ->
        status = Startup.Exited 1)
  /\ (forall conn, Startup.dial libs Startup.collectorURL = Ok conn ->
        is_ok (Startup.new_trace_exporter libs conn) = false
        \/ is_ok (Startup.new_metric_exporter libs conn) = false ->
        status = Startup.Exited 1)
  /\ (forall kind name, In (Startup.meter_register kind name, false) (Startup.calls p) ->
        status = Startup.Exited 1)
  /\ (cartCount w1 = cartCount w2 -> rand_draws w1 = rand_draws w2 ->
        fst (serve env route w1) = fst (serve env route w2))
  /\ (rw_status (fst (serve env route w1)) = Some http_StatusOK
      \/ (route = RouteHello /\ hello_fails env w1 = true
          /\ rw_status (fst (serve env route w1)) = Some http_StatusInternalServerError)).
Proof.
  cbn zeta.
  assert (Hserve : (cartCount w1 = cartCount w2 -> rand_draws w1 = rand_draws w2 ->
                    fst (serve env route w1) = fst (serve env route w2))
                   /\ (rw_status (fst (serve env route w1)) = Some http_StatusOK
                       \/ (route = RouteHello /\ hello_fails env w1 = true
                           /\ rw_status (fst (serve env route w1))
                              = Some http_StatusInternalServerError))).
  { split.
    - intros Hc Hr. rewrite !serve_response. unfold hello_fails. rewrite Hc, Hr. reflexivity.
    - rewrite serve_response. destruct route; [|left; reflexivity..].
      destruct (hello_fails env w1); [right | left]; repeat split. }
  destruct Hserve as [Hs1 Hs2].
  unfold resource_attrs. main_cases.
  all: repeat match goal with |- _ /\ _ => split end; try assumption.
  all: try (intros; discriminate).
  all: try (left; reflexivity).
  all: try (right; reflexivity).
  all: try (intros; reflexivity).
  all: try (intros _; split; [reflexivity | eexists; reflexivity]).
  all: try (intros conn [= <-] [Hf|Hf];
            destruct (Startup.new_trace_exporter libs _);
            destruct (Startup.new_metric_exporter libs _);
            cbn [is_ok] in Hf; congruence).
  all: try (intros [c Hin]; exfalso; cbn [In] in Hin;
            repeat (destruct Hin as [Hin|Hin]; [discriminate Hin|]); exact Hin).
  all: try (intros kind name Hin; exfalso; cbn [In] in Hin;
            repeat (destruct Hin as [Hin|Hin]; [discriminate Hin|]); exact Hin).
Qed.

(** The theorem when the meter refuses the cart gauge: the process exits. *)
Lemma startup_failures_are_fatal_witness :
  fst (Startup.main Startup.healthy (Startup.start taken_registry)) = Startup.Exited 1
  /\ exists e,
       last (Startup.calls (snd (Startup.main Startup.healthy (Startup.start taken_registry))))
       = Some (Startup.log_Fatal e, true).
Proof.
  destruct (startup_failures_are_fatal (H := SpecMeter) Startup.healthy taken_registry
              example_env RouteHello initial_world initial_world) as (_ & H & _).
  apply H. exists (Startup.meter_register Int64GaugeKind "api.cart.items").
  vm_compute. tauto.
Defined.

(** ** The sampler *)

Import Sampler.

(** One turn of the loop: from a tick to the wait for the next one. *)
Lemma run_tree_tick {S} `{Meter S} fuel ticks (o : Observed S) :
  run_tree (3 + fuel) (Datatypes.S ticks) (ITree.forever on_tick) o =
  let '(r, st) := register Float64ObservableGaugeKind "process.allocated_memory"
                    "Allocated memory in MB." "{MB}" (Some allocated_memory_callback)
                    (meter_after o) in
  run_tree fuel ticks (ITree.forever on_tick)
    (mkObserved (ticker_period o) (registrations o ++ [gauge_registration r]) st).
Proof.
  reflexivity.
Qed.

Lemma run_tree_wait {S} `{Meter S} fuel (o : Observed S) :
  run_tree (Datatypes.S fuel) 0 (ITree.forever on_tick) o = Waiting o.
Proof. reflexivity. Qed.

(** A run only looks at a tree through [observe]. *)
Lemma run_tree_observe {S} `{Meter S} fuel ticks t1 t2 (o : Observed S) :
  observe t1 = observe t2 -> run_tree fuel ticks t1 o = run_tree fuel ticks t2 o.
Proof.
  intros E. destruct fuel as [|fuel]; [reflexivity|].
  cbn [run_tree]. rewrite E. reflexivity.
Qed.

Lemma run_sampler_start {S} `{Meter S} fuel ticks (st : S) :
  run_sampler (Datatypes.S fuel) ticks st =
  run_tree fuel ticks (ITree.forever on_tick) (mkObserved (Some period) [] st).
Proof.
  unfold run_sampler. cbn [run_tree].
  change (observe collectMachineResourceMetrics)
    with (@VisF samplerE void (itree samplerE void) unit (time_NewTicker period)
            (fun x => ITree.bind (Ret x) (fun _ => ITree.forever on_tick))).
  cbv beta iota. apply run_tree_observe. reflexivity.
Qed.

(** The loop against any meter: after [ticks] ticks it has registered the
    gauge once per tick, and waits. *)
Lemma run_forever {S} `{Meter S} ticks :
  forall fuel (o : Observed S), (3 * ticks < fuel)%nat ->
  exists o',
    run_tree fuel ticks (ITree.forever on_tick) o = Waiting o'
    /\ ticker_period o' = ticker_period o
    /\ exists results,
         length results = ticks
         /\ registrations o' = registrations o ++ map gauge_registration results.
Proof.
  induction ticks as [|ticks IH]; intros fuel o Hfuel.
  - destruct fuel as [|fuel]; [lia|]. exists o. rewrite run_tree_wait.
    split; [reflexivity|]. split; [reflexivity|]. exists []. cbn [map length].
    rewrite app_nil_r. split; reflexivity.
  - destruct fuel as [|[|[|fuel]]]; try lia.
    change (Datatypes.S (Datatypes.S (Datatypes.S fuel))) with (3 + fuel)%nat.
    rewrite run_tree_tick.
    destruct (register Float64ObservableGaugeKind "process.allocated_memory"
                "Allocated memory in MB." "{MB}" (Some allocated_memory_callback)
                (meter_after o)) as [r st].
    destruct (IH fuel (mkObserved (ticker_period o)
                         (registrations o ++ [gauge_registration r]) st))
      as (o' & Hrun & Hper & results & Hlen & Hregs); [lia|].
    exists o'. split; [exact Hrun|]. split; [exact Hper|].
    exists (r :: results). cbn [length map]. split; [lia|].
    rewrite Hregs. cbn [registrations]. rewrite <- app_assoc. reflexivity.
Qed.

Lemma Registry_register_taken kind name desc unit_ cb (r : Registry) :
  (name, unit_) ∈ registered r ->
  Registry_register kind name desc unit_ cb r
  = (Err (DuplicateInstrumentError name unit_), r).
Proof.
  intros Hin. unfold Registry_register. destruct (decide _); [reflexivity|contradiction].
Qed.

Lemma Registry_register_free kind name desc unit_ cb (r : Registry) :
  (name, unit_) ∉ registered r ->
  Registry_register kind name desc unit_ cb r
  = (Ok (mkInstrument kind name desc unit_),
     {| registered := {[ (name, unit_) ]} ∪ registered r;
        callbacks := callbacks r ++ match cb with Some f => [f] | None => [] end |}).
Proof.
  intros Hin. unfold Registry_register. destruct (decide _); [contradiction|reflexivity].
Qed.

Lemma run_forever_taken ticks :
  forall fuel (o : Observed Registry), (3 * ticks < fuel)%nat ->
  allocated_memory_key ∈ registered (meter_after o) ->
  run_tree fuel ticks (ITree.forever on_tick) o
  = Waiting (mkObserved (ticker_period o)
               (registrations o
                ++ repeat (gauge_registration (Err duplicate_gauge)) ticks)
               (meter_after o)).
Proof.
  induction ticks as [|ticks IH]; intros fuel o Hfuel Hin.
  - destruct fuel as [|fuel]; [lia|]. rewrite run_tree_wait. cbn [repeat].
    rewrite app_nil_r. destruct o; reflexivity.
  - destruct fuel as [|[|[|fuel]]]; try lia.
    change (Datatypes.S (Datatypes.S (Datatypes.S fuel))) with (3 + fuel)%nat.
    rewrite run_tree_tick. cbn [register SpecMeter].
    rewrite Registry_register_taken by exact Hin.
    rewrite IH; [|lia|exact Hin]. cbn [ticker_period registrations meter_after repeat].
    rewrite <- app_assoc. reflexivity.
Qed.

(** Over a registry in which the gauge is not registered yet, the first
    tick registers it and every later tick is refused. *)
Lemma run_sampler_registry (st : Registry) (ticks fuel : nat) :
  allocated_memory_key ∉ registered st ->
  (enough (Datatypes.S ticks) <= fuel)%nat ->
  run_sampler fuel (Datatypes.S ticks) st
  = Waiting (mkObserved (Some period)
               (gauge_registration (Ok allocated_memory_gauge)
                :: repeat (gauge_registration (Err duplicate_gauge)) ticks)
               {| registered := {[ allocated_memory_key ]} ∪ registered st;
                  callbacks := callbacks st ++ [allocated_memory_callback] |}).
Proof.
  unfold enough. intros Hfree Hfuel.
  destruct fuel as [|[|[|[|fuel]]]]; try lia.
  rewrite run_sampler_start.
  change (Datatypes.S (Datatypes.S (Datatypes.S fuel))) with (3 + fuel)%nat.
  rewrite run_tree_tick. cbn [register SpecMeter meter_after].
  rewrite Registry_register_free by exact Hfree.
  rewrite run_forever_taken; [reflexivity | lia |].
  cbn [meter_after registered]. set_solver.
Qed.

Lemma main_leaves_gauge_free (libs : Startup.Libs) :
  allocated_memory_key
  ∉ registered (Startup.meter_state
                  (snd (Startup.main libs (Startup.start empty_registry)))).
Proof.
  main_cases.
  all: cbn [register SpecMeter] in *.
  all: repeat match goal with
         | E : Registry_register _ _ _ _ _ _ = _ |- _ =>
             unfold Registry_register in E; destruct (decide _) in E;
             injection E as <- <- || injection E as _ <-
         end.
  all: cbn [registered empty_registry]; unfold allocated_memory_key.
  all: set_solver.
Qed.

(** C3: with the meter of the specification, a second registration under
    the same name and unit fails, whatever the first one answered. So the
    sampler, which registers [process.allocated_memory] in [{MB}] on every
    tick, is answered an error on every tick after the first: over a
    registry where the gauge is not registered yet, the first tick
    registers it and each later one gets [DuplicateInstrumentError]. The
    registry [main] leaves behind is such a registry. The sampler drops the
    answer and goes on waiting for ticks. *)
Theorem duplicate_registration_fails
    (kind1 kind2 : InstrumentKind) (name desc1 desc2 unit_ : string)
    (cb1 cb2 : option Float64Callback) (r st : Registry)
    (libs : Startup.Libs) (ticks fuel : nat) :
  fst (Registry_register kind2 name desc2 unit_ cb2
         (snd (Registry_register kind1 name desc1 unit_ cb1 r)))
  = Err (DuplicateInstrumentError name unit_)
  /\ (allocated_memory_key ∉ registered st ->
      (enough (Datatypes.S ticks) <= fuel)%nat ->
      exists o,
        run_sampler fuel (Datatypes.S ticks) st = Waiting o
        /\ map reg_result (registrations o)
           = Ok allocated_memory_gauge :: repeat (Err duplicate_gauge) ticks)
  /\ allocated_memory_key
     ∉ registered (Startup.meter_state
                     (snd (Startup.main libs (Startup.start empty_registry)))).
Proof.
  split; [|split].
  - unfold Registry_register at 2.
    destruct (decide ((name, unit_) ∈ registered r)) as [Hin|Hout]; cbn [snd].
    + rewrite Registry_register_taken by exact Hin. reflexivity.
    + rewrite Registry_register_taken; [reflexivity|]. cbn [registered]. set_solver.
  - intros Hfree Hfuel. eexists. split; [apply run_sampler_registry; assumption|].
    cbn [registrations map gauge_registration reg_result].
    rewrite map_repeat. reflexivity.
  - apply main_leaves_gauge_free.
Qed.

(** The theorem at four ticks over the empty registry. *)
Lemma duplicate_registration_fails_witness :
  exists o,
    run_sampler 14 4 empty_registry = Waiting o
    /\ map reg_result (registrations o)
       = Ok allocated_memory_gauge :: repeat (Err duplicate_gauge) 3.
Proof.
  apply (duplicate_registration_fails Int64GaugeKind Int64GaugeKind "a" "b" "c" "d"
           None None empty_registry empty_registry Startup.healthy 3 14).
  - cbn [registered empty_registry]. set_solver.
  - unfold enough. lia.
Defined.

(** C4: the sampler creates one ticker of period 5 s and then, against
    any meter and whatever the meter answers, errors included, handles
    every tick it is sent: after [ticks] ticks it has made [ticks]
    registrations of [process.allocated_memory], each with the callback
    that observes the allocated memory of the moment in MB and returns no
    error, and it is waiting on [ticker.C] again. Its result type is empty:
    the loop does not return. With the meter of the specification the
    callback is called at each export, which then reads the current
    allocated memory. *)
Theorem sampler_keeps_ticking {S} `{Meter S} (st : S) (ticks fuel : nat) :
  (enough ticks <= fuel)%nat ->
  (exists o,
     run_sampler fuel ticks st = Waiting o
     /\ ticker_period o = Some (5 * 1000000000)
     /\ length (registrations o) = ticks
     /\ Forall (fun reg =>
                  reg_name reg = "process.allocated_memory"%string
                  /\ reg_unit reg = "{MB}"%string
                  /\ forall memStats,
                       reg_callback reg memStats
                       = ([(inject_Z (Alloc memStats) / inject_Z 1048576)%Q], None))
               (registrations o))
  /\ (forall (reg0 : Registry) (memStats : MemStats),
        allocated_memory_key ∉ registered reg0 -> callbacks reg0 = [] ->
        (0 < ticks)%nat ->
        exists o,
          run_sampler fuel ticks reg0 = Waiting o
          /\ export_tick memStats (meter_after o)
             = [(inject_Z (Alloc memStats) / inject_Z 1048576)%Q]).
Proof.
  intros Hfuel. split.
  - unfold enough in Hfuel. destruct fuel as [|fuel]; [lia|].
    rewrite run_sampler_start.
    destruct (run_forever ticks fuel (mkObserved (Some period) [] st))
      as (o & Hrun & Hper & results & Hlen & Hregs); [lia|].
    exists o. split; [exact Hrun|]. split; [rewrite Hper; reflexivity|].
    rewrite Hregs. cbn [registrations app]. rewrite length_map. split; [exact Hlen|].
    apply List.Forall_forall. intros reg (r & <- & _)%in_map_iff.
    repeat split.
  - intros reg0 memStats Hfree Hcb Hticks.
    destruct ticks as [|ticks]; [lia|].
    eexists. split; [apply run_sampler_registry; assumption|].
    cbn [meter_after callbacks]. rewrite Hcb. reflexivity.
Qed.

(** Against a meter that refuses every registration, three ticks are three
    refused registrations, and the sampler is waiting for the fourth. *)
Lemma sampler_keeps_ticking_witness :
  exists o,
    run_sampler (H := FailingMeter) 11 3 tt = Waiting o
    /\ ticker_period o = Some (5 * 1000000000)
    /\ length (registrations o) = 3%nat
    /\ Forall (fun reg =>
                 reg_name reg = "process.allocated_memory"%string
                 /\ reg_unit reg = "{MB}"%string
                 /\ forall memStats,
                      reg_callback reg memStats
                      = ([(inject_Z (Alloc memStats) / inject_Z 1048576)%Q], None))
              (registrations o).
Proof.
  assert (Hfuel : (enough 3 <= 11)%nat) by (unfold enough; lia).
  exact (proj1 (sampler_keeps_ticking (H := FailingMeter) tt 3 11 Hfuel)).
Defined.

Example failing_meter_run :
  match run_sampler (H := FailingMeter) 11 3 tt with
  | Waiting o => map reg_result (registrations o)
  | OutOfFuel _ => []
  end
  = [Err (errorString "no meter"); Err (errorString "no meter");
     Err (errorString "no meter")].
Proof. reflexivity. Qed.

(** ** Sequences of requests: responses, counter, gauge and spans *)

Lemma serve_all_fst_cons env route rest w :
  fst (serve_all env (route :: rest) w) =
  fst (serve env route w) :: fst (serve_all env rest (snd (serve env route w))).
Proof.
  cbn [serve_all]. unfold bind, ret.
  destruct (serve env route w) as [resp w1]. cbn [fst snd].
  destruct (serve_all env rest w1) as [r2 w2]. reflexivity.
Qed.

Lemma serve_latencyHistogram env route w :
  latencyHistogram (snd (serve env route w)) =
  match route with
  | RouteHello =>
      (now env (2 + clock_reads w) - now env (1 + clock_reads w)) :: latencyHistogram w
  | _ => latencyHistogram w
  end.
Proof.
  destruct route; unfold serve;
    rewrite ?helloWorldHandler_eq, ?cartAddHandler_eq, ?cartRemoveHandler_eq;
    reflexivity.
Qed.

(** X1: over any sequence of requests served one after the other, every
    request gets one response, with status 200 or 500; [errorCounter] grows
    by exactly the number of 500 responses; and the histogram receives one
    latency for each request to [/], none for the cart requests. *)
Theorem errors_counted_once (env : Env) (routes : list Route) (w : World) :
  let resps := fst (serve_all env routes w) in
  let w' := snd (serve_all env routes w) in
  length resps = length routes
  /\ errorCounter w'
     = errorCounter w + Z.of_nat (count_status http_StatusInternalServerError resps)
  /\ (count_status http_StatusOK resps
      + count_status http_StatusInternalServerError resps = length routes)%nat
  /\ length (latencyHistogram w')
     = (count_route RouteHello routes + length (latencyHistogram w))%nat.
Proof.
  revert w. induction routes as [|route rest IH]; intros w.
  - cbn. repeat split; lia.
  - cbn zeta. rewrite serve_all_fst_cons, serve_all_cons.
    destruct (IH (snd (serve env route w))) as (H1 & H2 & H3 & H4).
    cbn zeta in H1, H2, H3, H4.
    rewrite H2, H4, serve_errorCounter, serve_latencyHistogram.
    unfold count_status in *. cbn [List.filter length]. rewrite H1.
    rewrite serve_response.
    unfold count_route. cbn [List.filter].
    destruct route; [destruct (hello_fails env w)| |];
      cbn [rw_status http_Error Write WriteHeader newResponseWriter
           http_StatusOK http_StatusInternalServerError Z.eqb Pos.eqb length] in *;
      repeat split; lia.
Qed.

(** X2: after any sequence of requests served one after the other, the
    gauge holds the current cart count as soon as one of them was a cart
    request, and is untouched otherwise: the two never disagree between
    requests. *)
Theorem gauge_tracks_cart (env : Env) (routes : list Route) (w : World) :
  let w' := snd (serve_all env routes w) in
  itemGauge w' = if existsb is_cart routes then Some (cartCount w') else itemGauge w.
Proof.
  revert w. induction routes as [|route rest IH]; intros w; [reflexivity|].
  cbn zeta in *. rewrite serve_all_cons, IH. cbn [existsb].
  destruct (existsb is_cart rest) eqn:E.
  - rewrite orb_true_r. reflexivity.
  - rewrite orb_false_r, serve_itemGauge.
    assert (Hsame : cartCount (snd (serve_all env rest (snd (serve env route w))))
                    = cartCount (snd (serve env route w))).
    { rewrite serve_all_cartCount. generalize (cartCount (snd (serve env route w))).
      clear IH. induction rest as [|r rest IHr]; intros c; [reflexivity|].
      cbn [existsb] in E. apply orb_false_elim in E as [Er Erest].
      destruct r; try discriminate Er. cbn [fold_left next_count]. apply IHr, Erest. }
    destruct route; cbn [is_cart]; [reflexivity| |];
      rewrite Hsame, serve_cartCount; reflexivity.
Qed.



(** X4: when the clock does not go backwards, the latency that
    [helloWorldHandler] records through [recordLatencyHistogram] is not
    negative and not larger than the duration of the request's span: the
    span is started before [start] is read and ended after the deferred
    recording has run. *)
Theorem latency_within_span (env : Env) (r : Request) (w : World) :
  monotone_clock env ->
  let w' := snd (helloWorldHandler env newResponseWriter r w) in
  exists latency span finish,
    latencyHistogram w' = latency :: latencyHistogram w
    /\ nth_error (spans (tracer w')) (length (spans (tracer w))) = Some span
    /\ span_end span = Some finish
    /\ 0 <= latency <= finish - span_start span.
Proof.
  intros Hmono. cbn zeta. rewrite helloWorldHandler_eq.
  cbn [snd latencyHistogram tracer spans]. rewrite nth_error_last.
  do 3 eexists. split; [reflexivity|]. split; [reflexivity|].
  split; [reflexivity|].
  unfold finished_span, new_span. cbn [span_start].
  assert (H01 : now env (clock_reads w) <= now env (1 + clock_reads w)) by (apply Hmono; lia).
  assert (H12 : now env (1 + clock_reads w) <= now env (2 + clock_reads w)) by (apply Hmono; lia).
  assert (H23 : now env (2 + clock_reads w) <= now env (3 + clock_reads w)) by (apply Hmono; lia).
  destruct (parent_span (req_Context r) (tracer w)) as [[p ps]|]; cbn [span_start]; lia.
Qed.

(** The theorem for the first request, with a clock that advances by one
    at each reading. *)
Lemma latency_within_span_witness :
  let w' := snd (helloWorldHandler example_env newResponseWriter server_request
                   initial_world) in
  exists latency span finish,
    latencyHistogram w' = latency :: latencyHistogram initial_world
    /\ nth_error (spans (tracer w')) (length (spans (tracer initial_world))) = Some span
    /\ span_end span = Some finish
    /\ 0 <= latency <= finish - span_start span.
Proof.
  apply (latency_within_span example_env server_request initial_world).
  intros i j Hij. cbn [now example_env]. lia.
Defined.

(** Each request adds one span: a root, named after its handler, in a
    trace of its own. *)
Lemma serve_span env route w :
  exists s,
    tracer (snd (serve env route w))
    = {| spans := spans (tracer w) ++ [s]; traces := S (traces (tracer w)) |}
    /\ span_name s = handler_name route
    /\ span_trace s = traces (tracer w)
    /\ span_parent s = None.
Proof.
  destruct route; unfold serve;
    rewrite ?helloWorldHandler_eq, ?cartAddHandler_eq, ?cartRemoveHandler_eq;
    eexists; (split; [reflexivity|]); repeat split.
Qed.

Lemma serve_all_new_spans env routes : forall w,
  exists news,
    spans (tracer (snd (serve_all env routes w))) = spans (tracer w) ++ news
    /\ traces (tracer (snd (serve_all env routes w)))
       = (traces (tracer w) + length routes)%nat
    /\ map span_name news = map handler_name routes
    /\ map span_trace news = seq (traces (tracer w)) (length routes)
    /\ map span_parent news = repeat None (length routes).
Proof.
  induction routes as [|route rest IH]; intros w.
  - exists []. cbn. rewrite app_nil_r. repeat split; lia.
  - rewrite serve_all_cons.
    destruct (serve_span env route w) as (s & Htr & Hname & Htrace & Hpar).
    destruct (IH (snd (serve env route w))) as (news & H1 & H2 & H3 & H4 & H5).
    rewrite Htr in H1, H2, H4. cbn [spans traces] in H1, H2, H4.
    exists (s :: news). rewrite H1, H2, <- app_assoc.
    cbn [map length seq repeat app]. rewrite Hname, Htrace, Hpar, H3, H4, H5.
    repeat split. lia.
Qed.

(** X5: from the initial state, the recorder holds after any sequence of
    requests exactly one span per request, in the order of the requests,
    named after the handler, with no parent, and in a trace of its own. *)
Theorem one_root_span_per_request (env : Env) (routes : list Route) :
  let p := tracer (snd (serve_all env routes initial_world)) in
  map span_name (spans p) = map handler_name routes
  /\ map span_trace (spans p) = seq 0 (length routes)
  /\ map span_parent (spans p) = repeat None (length routes)
  /\ traces p = length routes.
Proof.
  destruct (serve_all_new_spans env routes initial_world)
    as (news & H1 & H2 & H3 & H4 & H5).
  cbn zeta. rewrite H1, H2. cbn [initial_world tracer spans traces app Nat.add] in *.
  repeat split; assumption.
Qed.

(** ** The response of the cart handlers *)

Lemma to_int_wellformed z :
  Z.to_int z <> Decimal.Pos Decimal.Nil /\ Z.to_int z <> Decimal.Neg Decimal.Nil.
Proof.
  destruct z as [|p|p]; cbn; split; try discriminate;
    intros E; injection E as E; exact (DecimalPos.Unsigned.to_uint_nonnil p E).
Qed.

(** [%d] prints different integers differently. *)
Lemma fmt_d_inj a b : fmt_d a = fmt_d b -> a = b.
Proof.
  unfold fmt_d. intros E.
  assert (H : Some (Z.to_int a) = Some (Z.to_int b)).
  { destruct (to_int_wellformed a) as [Ha1 Ha2], (to_int_wellformed b) as [Hb1 Hb2].
    rewrite <- (NilZero.isi (Z.to_int a) Ha1 Ha2), <- (NilZero.isi (Z.to_int b) Hb1 Hb2), E.
    reflexivity. }
  injection H as H.
  rewrite <- (DecimalZ.of_to a), <- (DecimalZ.of_to b), H. reflexivity.
Qed.

Lemma string_app_inv_head (p s t : string) :
  (p ++ s)%string = (p ++ t)%string -> s = t.
Proof.
  induction p as [|c p IH]; cbn; [tauto|]. intros E. injection E as E. auto.
Qed.

Lemma string_app_length (s t : string) :
  String.length (s ++ t) = (String.length s + String.length t)%nat.
Proof.
  induction s as [|c s IH]; [reflexivity|].
  change (S (String.length (s ++ t)%string)
          = S (String.length s + String.length t)%nat).
  now rewrite IH.
Qed.

Lemma string_app_inv_tail (s t u : string) :
  (s ++ u)%string = (t ++ u)%string -> s = t.
Proof.
  revert t. induction s as [|c s IH]; intros [|d t] E.
  - reflexivity.
  - exfalso. apply (f_equal String.length) in E.
    change (String.length u = S (String.length (t ++ u)%string)) in E.
    rewrite string_app_length in E. lia.
  - exfalso. apply (f_equal String.length) in E.
    change (S (String.length (s ++ u)%string) = String.length u) in E.
    rewrite string_app_length in E. lia.
  - change (String c (s ++ u) = String d (t ++ u))%string in E.
    injection E as -> E. f_equal. apply IH, E.
Qed.

(** X6: the message of a cart response determines the cart count: two
    responses of the same cart handler carry the same body only if the
    cart counts they leave behind are equal ([%d] prints different
    integers differently). *)
Theorem cart_message_determines_count (env1 env2 : Env) (route : Route)
    (w1 w2 : World) :
  is_cart route = true ->
  rw_body (fst (serve env1 route w1)) = rw_body (fst (serve env2 route w2)) ->
  cartCount (snd (serve env1 route w1)) = cartCount (snd (serve env2 route w2)).
Proof.
  intros Hcart. rewrite !serve_response, !serve_cartCount.
  destruct route; [discriminate| |];
    cbn [rw_body Write WriteHeader newResponseWriter http_StatusOK rw_status];
    unfold cart_message; intros E; do 2 apply string_app_inv_head in E;
    apply string_app_inv_tail in E;
    apply fmt_d_inj in E; exact E.
Qed.

(** The theorem for an addition before and after a request to [/]: the
    same message, the same count. *)
Lemma cart_message_determines_count_witness :
  cartCount (snd (serve example_env RouteCartAdd initial_world))
  = cartCount (snd (serve example_env RouteCartAdd
                      (snd (serve example_env RouteHello initial_world)))).
Proof.
  apply (cart_message_determines_count example_env example_env RouteCartAdd).
  - reflexivity.
  - vm_compute. reflexivity.
Defined.

(** X7: the [http.status] attribute that [helloWorldHandler] puts on its
    span is the status of the response it writes. The handler draws one
    random number, adds one span, and leaves the cart count and the gauge
    as they were. *)
Theorem hello_span_reports_status (env : Env) (r : Request) (w : World) :
  let resp := fst (helloWorldHandler env newResponseWriter r w) in
  let w' := snd (helloWorldHandler env newResponseWriter r w) in
  (exists code,
      rw_status resp = Some code
      /\ span_attr "http.status" (length (spans (tracer w))) w'
         = Some (Int64Value code))
  /\ cartCount w' = cartCount w
  /\ itemGauge w' = itemGauge w
  /\ rand_draws w' = S (rand_draws w)
  /\ length (spans (tracer w')) = S (length (spans (tracer w))).
Proof.
  cbn zeta. rewrite helloWorldHandler_eq. unfold span_attr.
  cbn [fst snd tracer spans cartCount itemGauge rand_draws].
  rewrite nth_error_last, length_app. unfold finished_span. cbn [span_attrs length].
  split; [|repeat split; lia].
  destruct (hello_fails env w); eexists; repeat split.
Qed.

(** ** The cart count under every schedule *)

Lemma list_sum_set_nth {A} (f : A -> nat) ts tid t t' :
  nth_error ts tid = Some t ->
  (list_sum (map f (set_nth tid t' ts)) + f t = list_sum (map f ts) + f t')%nat.
Proof.
  revert tid. induction ts as [|x ts IH]; intros [|tid]; cbn [nth_error set_nth map];
    try discriminate.
  - intros [= ->]. cbn [list_sum fold_right]. fold (list_sum (map f ts)). lia.
  - intros H. specialize (IH tid H). cbn [list_sum fold_right].
    fold (list_sum (map f ts)) (list_sum (map f (set_nth tid t' ts))). lia.
Qed.

Lemma Forall_set_nth {A} (P : A -> Prop) ts tid t' :
  List.Forall P ts -> P t' -> List.Forall P (set_nth tid t' ts).
Proof.
  intros Hts Ht'. revert tid. induction Hts as [|x ts Hx Hts IH]; intros [|tid]; cbn;
    constructor; auto.
Qed.

Lemma Forall_nth_error {A} (P : A -> Prop) ts tid t :
  List.Forall P ts -> nth_error ts tid = Some t -> P t.
Proof.
  intros Hts Hn. rewrite List.Forall_forall in Hts. eapply Hts, nth_error_In, Hn.
Qed.

Lemma count_incs_skipn n c : (count_incs (skipn n c) <= count_incs c)%nat.
Proof.
  revert c. induction n as [|n IH]; intros [|i c]; cbn; try lia.
  specialize (IH c). destruct i; lia.
Qed.

Lemma count_decs_skipn n c : (count_decs (skipn n c) <= count_decs c)%nat.
Proof.
  revert c. induction n as [|n IH]; intros [|i c]; cbn; try lia.
  specialize (IH c). destruct i; lia.
Qed.

Lemma list_sum_nth_le {A} (f : A -> nat) ts tid t :
  nth_error ts tid = Some t -> (f t <= list_sum (map f ts))%nat.
Proof.
  revert tid. induction ts as [|x ts IH]; intros [|tid]; cbn [nth_error map];
    try discriminate; cbn [list_sum fold_right]; fold (list_sum (map f ts)).
  - intros [= ->]. lia.
  - intros H. specialize (IH tid H). lia.
Qed.

(** One goroutine moves: the bounds follow the stores it has just made or
    given up. *)
Lemma within_update a r sh ts tid t t' sh' :
  nth_error ts tid = Some t ->
  within a r (mkConfig sh ts) ->
  (count_incs (code t') <= count_incs (code t))%nat ->
  (count_decs (code t') <= count_decs (code t))%nat ->
  (forall lo hi,
     lo <= sh_cartCount sh <= hi -> lo <= local t <= hi ->
     hi <= a - Z.of_nat (count_incs (code t)) ->
     Z.of_nat (count_decs (code t)) - r <= lo ->
     let di := Z.of_nat (count_incs (code t)) - Z.of_nat (count_incs (code t')) in
     let dd := Z.of_nat (count_decs (code t)) - Z.of_nat (count_decs (code t')) in
     lo - dd <= sh_cartCount sh' <= hi + di /\ lo - dd <= local t' <= hi + di) ->
  within a r (mkConfig sh' (set_nth tid t' ts)).
Proof.
  intros Hnth [Hc Hl] Hi Hd Hnew. unfold within in *. cbn [threads shared] in *.
  unfold pending_incs, pending_decs in *.
  pose proof (list_sum_set_nth (fun t => count_incs (code t)) ts tid t t' Hnth) as Ei.
  pose proof (list_sum_set_nth (fun t => count_decs (code t)) ts tid t t' Hnth) as Ed.
  pose proof (list_sum_nth_le (fun t => count_incs (code t)) ts tid t Hnth) as Li.
  pose proof (list_sum_nth_le (fun t => count_decs (code t)) ts tid t Hnth) as Ld.
  cbn beta in *.
  pose proof (Forall_nth_error _ ts tid t Hl Hnth) as Ht. cbn beta in Ht.
  specialize (Hnew _ _ Hc Ht). cbn zeta in Hnew.
  destruct Hnew as [Hc' Hl']; [lia | lia |].
  split; [lia|].
  apply Forall_set_nth; [|lia].
  eapply List.Forall_impl; [|exact Hl]. cbn beta. intros x Hx. lia.
Qed.

Lemma within_step a r cfg tid :
  a <= Int64.max_int -> r <= - Int64.min_int ->
  within a r cfg -> within a r (step cfg tid).
Proof.
  intros Ha Hr Hw. unfold step.
  destruct (nth_error (threads cfg) tid) as [t|] eqn:Hnth; [|exact Hw].
  destruct (code t) as [|i rest] eqn:Hcode; [exact Hw|].
  destruct cfg as [sh ts]. cbn [threads shared] in *.
  unfold Int64.max_int, Int64.min_int in *.
  destruct i; cbn [exec];
    (apply (within_update a r sh ts tid t); [exact Hnth | exact Hw | ..]);
    rewrite ?Hcode; cbn [code local sh_cartCount count_incs count_decs];
    try lia.
  - intros lo hi Hc Ht Hhi Hlo. unfold Int64.add.
    rewrite wrap_in_range
      by (unfold Int64.in_range, Int64.min_int, Int64.max_int; lia). lia.
  - intros lo hi Hc Ht Hhi Hlo. unfold Int64.sub.
    rewrite wrap_in_range
      by (unfold Int64.in_range, Int64.min_int, Int64.max_int; lia). lia.
  - destruct (local t =? 0); [apply count_incs_skipn | lia].
  - destruct (local t =? 0); [apply count_decs_skipn | lia].
  - intros lo hi Hc Ht Hhi Hlo.
    pose proof (count_incs_skipn n rest). pose proof (count_decs_skipn n rest).
    destruct (local t =? 0); lia.
Qed.

Lemma within_run a r schedule : forall cfg,
  a <= Int64.max_int -> r <= - Int64.min_int ->
  within a r cfg -> within a r (run schedule cfg).
Proof.
  induction schedule as [|tid schedule IH]; intros cfg Ha Hr Hw; [exact Hw|].
  cbn [run fold_left]. apply IH; try assumption. apply within_step; assumption.
Qed.

Lemma count_incs_app c1 c2 : count_incs (c1 ++ c2) = (count_incs c1 + count_incs c2)%nat.
Proof. induction c1 as [|i c1 IH]; [reflexivity|]. destruct i; cbn; lia. Qed.

Lemma count_decs_app c1 c2 : count_decs (c1 ++ c2) = (count_decs c1 + count_decs c2)%nat.
Proof. induction c1 as [|i c1 IH]; [reflexivity|]. destruct i; cbn; lia. Qed.

Lemma pending_spawn work sh :
  pending_incs (threads (spawn work sh)) = adds_of work
  /\ pending_decs (threads (spawn work sh)) = removes_of work.
Proof.
  unfold pending_incs, pending_decs, adds_of, removes_of, spawn. cbn [threads].
  rewrite !map_map. cbn [code].
  induction work as [|ops work [IHi IHd]]; [split; reflexivity|].
  cbn [map concat]. rewrite !List.filter_app, !length_app.
  cbn [list_sum fold_right].
  fold (list_sum (map (fun ops => count_incs (flat_map code_of ops)) work)).
  fold (list_sum (map (fun ops => count_decs (flat_map code_of ops)) work)).
  rewrite IHi, IHd.
  assert (H : count_incs (flat_map code_of ops)
              = length (List.filter (fun op => match op with Add => true | Remove => false end) ops)
              /\ count_decs (flat_map code_of ops)
                 = length (List.filter (fun op => match op with Add => false | Remove => true end) ops)).
  { clear. induction ops as [|op ops [IHi IHd]]; [split; reflexivity|].
    cbn [flat_map List.filter]. rewrite count_incs_app, count_decs_app, IHi, IHd.
    destruct op; cbn; split; reflexivity. }
  destruct H as [-> ->]. split; reflexivity.
Qed.

(** X8: under every schedule, however the goroutines interleave and
    wherever the run is stopped, the cart count stays between minus the
    number of removals requested and the number of additions requested
    (as long as those fit in an [int64]). Updates may be lost, but none is
    invented. *)
Theorem cart_count_bounds (work : list (list Op)) (schedule : list nat) :
  Z.of_nat (adds_of work) <= Int64.max_int ->
  Z.of_nat (removes_of work) <= - Int64.min_int ->
  - Z.of_nat (removes_of work)
  <= sh_cartCount (shared (run schedule (spawn work shared0)))
  <= Z.of_nat (adds_of work).
Proof.
  intros Ha Hr.
  destruct (pending_spawn work shared0) as [Hi Hd].
  assert (Hw : within (Z.of_nat (adds_of work)) (Z.of_nat (removes_of work))
                 (spawn work shared0)).
  { unfold within. rewrite Hi, Hd. cbn [spawn shared threads shared0 sh_cartCount].
    split; [lia|]. apply List.Forall_forall. intros t (ops & <- & _)%in_map_iff.
    cbn [local]. lia. }
  destruct (within_run _ _ schedule _ Ha Hr Hw) as [Hc _]. lia.
Qed.

(** The theorem for one addition and two removals, under a schedule that
    lets both removals test the count before either decrements it. *)
Lemma cart_count_bounds_witness :
  let work := [[Add]; [Remove]; [Remove]] in
  let schedule := alone 0 8 ++ [1; 1; 2; 2]%nat ++ alone 1 8 ++ alone 2 8 in
  -2 <= sh_cartCount (shared (run schedule (spawn work shared0))) <= 1.
Proof.
  intros work schedule. apply (cart_count_bounds work schedule).
  - vm_compute. discriminate.
  - vm_compute. discriminate.
Defined.

(** The lower bound is not 0: the test [cartCount != 0] and the decrement
    are separate accesses, so two removals that both pass the test on a
    cart of one item leave -1. *)
Example negative_cart :
  let work := [[Add]; [Remove]; [Remove]] in
  let schedule := alone 0 8 ++ [1; 1; 2; 2]%nat ++ alone 1 8 ++ alone 2 8 in
  let cfg := run schedule (spawn work shared0) in
  finished cfg = true
  /\ shared cfg = mkShared (-1) (Some (-1)).
Proof. vm_compute. split; reflexivity. Qed.

Lemma reported_step a r cfg tid :
  within a r cfg -> reported a r cfg -> reported a r (step cfg tid).
Proof.
  intros [_ Hl] [Hg Hts]. unfold step.
  destruct (nth_error (threads cfg) tid) as [t|] eqn:Hnth; [|split; assumption].
  destruct (code t) as [|i rest] eqn:Hcode; [split; assumption|].
  pose proof (Forall_nth_error _ _ tid t Hl Hnth) as Hloc. cbn beta in Hloc.
  pose proof (Forall_nth_error _ _ tid t Hts Hnth) as [Hrep Hatt].
  assert (Hv : - r <= local t <= a) by lia. clear Hloc Hl.
  destruct cfg as [sh ts]. cbn [threads shared] in *.
  assert (Hone : Forall (fun v => - r <= v <= a) [local t])
    by (constructor; [exact Hv | constructor]).
  destruct i; cbn [exec]; unfold reported;
    cbn [shared threads sh_itemGauge sh_cartCount Gauge_Record];
    (split; [first [exact Hg | exact Hv]|]);
    apply Forall_set_nth; try exact Hts; cbn [replies attrs];
    (split; first [assumption | apply Forall_app; split; assumption]).
Qed.

(** X9: under every schedule, every number a cart handler reports, in
    the gauge, in the [cartCount] attribute of its span or in its response,
    lies between minus the number of removals requested and the number of
    additions requested (as long as those fit in an [int64]). *)
Theorem reported_counts_bounded (work : list (list Op)) (schedule : list nat) :
  Z.of_nat (adds_of work) <= Int64.max_int ->
  Z.of_nat (removes_of work) <= - Int64.min_int ->
  let cfg := run schedule (spawn work shared0) in
  let ok v := - Z.of_nat (removes_of work) <= v <= Z.of_nat (adds_of work) in
  (forall v, sh_itemGauge (shared cfg) = Some v -> ok v)
  /\ (forall t v, In t (threads cfg) -> In v (replies t) \/ In v (attrs t) -> ok v).
Proof.
  intros Ha Hr. cbn zeta.
  set (a := Z.of_nat (adds_of work)) in *. set (r := Z.of_nat (removes_of work)) in *.
  assert (H : within a r (run schedule (spawn work shared0))
              /\ reported a r (run schedule (spawn work shared0))).
  { assert (H0 : within a r (spawn work shared0) /\ reported a r (spawn work shared0)).
    { destruct (pending_spawn work shared0) as [Hi Hd]. split.
      - unfold within. rewrite Hi, Hd. cbn [spawn shared threads shared0 sh_cartCount].
        split; [lia|]. apply List.Forall_forall. intros t (ops & <- & _)%in_map_iff.
        cbn [local]. lia.
      - split; [exact I|]. cbn [spawn threads]. apply List.Forall_forall.
        intros t (ops & <- & _)%in_map_iff. cbn [replies attrs]. split; constructor. }
    revert H0. generalize (spawn work shared0).
    induction schedule as [|tid schedule IH]; intros cfg [Hw Hrep]; [split; assumption|].
    cbn [run fold_left]. apply IH. split.
    - apply within_step; assumption.
    - apply reported_step; assumption. }
  destruct H as [_ [Hg Hts]]. split.
  - intros v E. rewrite E in Hg. exact Hg.
  - intros t v Ht Hv. rewrite List.Forall_forall in Hts.
    destruct (Hts t Ht) as [Hrep Hatt]. rewrite List.Forall_forall in Hrep, Hatt.
    destruct Hv as [Hv|Hv]; auto.
Qed.

(** The theorem for one addition and two removals, under the schedule
    that leaves -1 in the cart and in the gauge. *)
Lemma reported_counts_bounded_witness :
  let work := [[Add]; [Remove]; [Remove]] in
  let schedule := alone 0 8 ++ [1; 1; 2; 2]%nat ++ alone 1 8 ++ alone 2 8 in
  let cfg := run schedule (spawn work shared0) in
  (forall v, sh_itemGauge (shared cfg) = Some v -> -2 <= v <= 1)
  /\ (forall t v, In t (threads cfg) -> In v (replies t) \/ In v (attrs t) ->
        -2 <= v <= 1).
Proof.
  intros work schedule.
  apply (reported_counts_bounded work schedule); vm_compute; discriminate.
Defined.

(** ** One response per request under every schedule *)

Lemma silent_skips_skipn n c : silent_skips c = true -> silent_skips (skipn n c) = true.
Proof.
  revert c. induction n as [|n IH]; intros [|i c] H; try assumption.
  cbn [skipn]. apply IH. destruct i; cbn [silent_skips] in H; try assumption.
  apply andb_true_iff in H as [_ H]. exact H.
Qed.

Lemma filter_skipn_silent (p : Instr -> bool) n c :
  (forall i, is_access i = true -> p i = false) ->
  forallb is_access (firstn n c) = true ->
  length (List.filter p (skipn n c)) = length (List.filter p c).
Proof.
  intros Hp. revert c. induction n as [|n IH]; intros [|i c] H; try reflexivity.
  cbn [firstn forallb] in H. apply andb_true_iff in H as [Hi H].
  cbn [skipn List.filter]. rewrite (Hp i Hi). apply IH, H.
Qed.

Lemma Forall2_set_nth {A B} (P : A -> B -> Prop) l ts tid t' :
  Forall2 P l ts ->
  (forall x t, nth_error l tid = Some x -> nth_error ts tid = Some t -> P x t') ->
  Forall2 P l (set_nth tid t' ts).
Proof.
  intros H. revert tid. induction H as [|x t l ts Hx H IH]; intros tid Ht'.
  - destruct tid; constructor.
  - destruct tid as [|tid]; cbn [set_nth]; constructor; try assumption.
    + apply (Ht' x t); reflexivity.
    + apply IH. intros x0 t0. apply (Ht' x0 t0).
Qed.

Lemma answering_exec n i rest t sh :
  code t = i :: rest -> answering n t -> answering n (fst (exec i rest t sh)).
Proof.
  intros Hcode (Hs & Hr & Ha). rewrite Hcode in Hs, Hr, Ha. unfold answering.
  destruct i; cbn [exec fst code replies attrs silent_skips List.filter
                   is_respond is_setattr length] in *;
    rewrite ?length_app; cbn [length]; try (repeat split; [assumption|lia|lia]).
  apply andb_true_iff in Hs as [Hf Hs].
  destruct (local t =? 0); [|repeat split; assumption].
  split; [apply silent_skips_skipn, Hs|].
  rewrite !filter_skipn_silent; try assumption; [split; assumption| |];
    intros []; (reflexivity || discriminate).
Qed.

Lemma answering_step (work : list (list Op)) cfg tid :
  Forall2 (fun ops t => answering (length ops) t) work (threads cfg) ->
  Forall2 (fun ops t => answering (length ops) t) work (threads (step cfg tid)).
Proof.
  intros H. unfold step.
  destruct (nth_error (threads cfg) tid) as [t|] eqn:Hnth; [|exact H].
  destruct (code t) as [|i rest] eqn:Hcode; [exact H|].
  pose proof (answering_exec) as Hex.
  destruct (exec i rest t (shared cfg)) as [t' sh'] eqn:He. cbn [threads].
  apply Forall2_set_nth; [exact H|].
  intros ops t0 Hops Ht0. rewrite Hnth in Ht0. injection Ht0 as <-.
  specialize (Hex (length ops) i rest t (shared cfg) Hcode). rewrite He in Hex.
  apply Hex. clear Hex He.
  revert tid Hnth Hops. induction H as [|x y l ts Hxy H IH]; intros [|tid] Hn Ho;
    cbn [nth_error] in *; try discriminate.
  - injection Hn as <-. injection Ho as <-. exact Hxy.
  - eapply IH; eassumption.
Qed.

Lemma answering_spawn (work : list (list Op)) sh :
  Forall2 (fun ops t => answering (length ops) t) work (threads (spawn work sh)).
Proof.
  unfold spawn. cbn [threads]. induction work as [|ops work IH]; cbn [map]; constructor;
    [|exact IH].
  unfold answering. cbn [code replies attrs length]. clear.
  induction ops as [|op ops (Hs & Hr & Ha)]; [repeat split|].
  cbn [flat_map length]. destruct op; cbn in *; repeat split; try assumption; lia.
Qed.

(** X10: under every schedule and wherever the run is stopped, a
    goroutine has written at most one response and set at most one span
    attribute per request it was given, and exactly one of each per request
    once it has run all its accesses: interleaving may change the numbers
    reported, never how many reports there are. *)
Theorem every_request_answered (work : list (list Op)) (schedule : list nat) :
  let cfg := run schedule (spawn work shared0) in
  length (threads cfg) = length work
  /\ forall tid ops t,
       nth_error work tid = Some ops -> nth_error (threads cfg) tid = Some t ->
       (length (replies t) <= length ops)%nat
       /\ (length (attrs t) <= length ops)%nat
       /\ (code t = [] ->
           length (replies t) = length ops /\ length (attrs t) = length ops).
Proof.
  cbn zeta.
  assert (H : Forall2 (fun ops t => answering (length ops) t) work
                (threads (run schedule (spawn work shared0)))).
  { generalize (answering_spawn work shared0). generalize (spawn work shared0).
    induction schedule as [|tid schedule IH]; intros cfg Hc; [exact Hc|].
    cbn [run fold_left]. apply IH, answering_step, Hc. }
  split; [symmetry; eapply Forall2_length, H|].
  intros tid ops t Hops Ht.
  assert (Hans : answering (length ops) t).
  { revert tid Hops Ht. induction H as [|x y l ts Hxy H IH]; intros [|tid] Ho Hn;
      cbn [nth_error] in *; try discriminate.
    - injection Hn as <-. injection Ho as <-. exact Hxy.
    - eapply IH; eassumption. }
  destruct Hans as (Hs & Hr & Ha).
  split; [lia|]. split; [lia|].
  intros E. rewrite E in Hr, Ha. cbn [List.filter length] in Hr, Ha. lia.
Qed.

(** ** The calls of [main] *)

Import Startup.

(** X11: the three [init*] functions do not treat a failure alike.
    [initGrpcConn] and [initMeterProvider] always return, with an error
    that wraps the library's error exactly when the library call failed, and
    then without any further call. [initTraceProvider] never returns an
    error: when its exporter cannot be created it calls [log.Fatal] itself
    and the process exits with code 1. *)
Theorem init_error_paths {S} `{Meter S} (libs : Libs) (res : Resource) (conn : Conn)
    (p : Proc S) :
  (exists r, fst (initGrpcConn libs p) = Running r
             /\ is_ok r = is_ok (dial libs collectorURL)
             /\ forall e, dial libs collectorURL = Err e ->
                  r = Err (wrapError "failed to create gRPC connection to collector" e))
  /\ (exists r, fst (initMeterProvider libs res conn p) = Running r
                /\ is_ok r = is_ok (new_metric_exporter libs conn)
                /\ forall e, new_metric_exporter libs conn = Err e ->
                     r = Err (wrapError "failed to create metrics exporter" e)
                     /\ calls (snd (initMeterProvider libs res conn p))
                        = calls p ++ [(otlpmetricgrpc_New conn, false)])
  /\ (forall e, fst (initTraceProvider libs res conn p) <> Running (Err e))
  /\ (fst (initTraceProvider libs res conn p) = Exited 1
      <-> is_ok (new_trace_exporter libs conn) = false)
  /\ (forall e, new_trace_exporter libs conn = Err e ->
        calls (snd (initTraceProvider libs res conn p))
        = calls p ++ [(otlptracegrpc_New conn, false);
                      (log_Fatal (wrapError "Failed to create exporter" e), true)]).
Proof.
  unfold initGrpcConn, initMeterProvider, initTraceProvider, lib, call, log_Fatal_,
    main_bind, main_ret.
  cbn [calls meter_state].
  destruct (dial libs collectorURL), (new_metric_exporter libs conn),
    (new_trace_exporter libs conn); cbn [is_ok fst snd calls meter_state];
    rewrite <- ?app_assoc; cbn [app];
    repeat split; try (eexists; repeat split); intros; try reflexivity;
    try discriminate; try congruence.
Qed.

(** X12: whatever the libraries and the meter answer, every error [main]
    hands to [log.Fatal] comes from a call that failed (wrapped as the
    source wraps it); [log.Fatal] is called at most once, and exactly once
    when the process exits. *)
Theorem fatal_errors_of_main {S} `{Meter S} (libs : Libs) (st : S) :
  let status := fst (main libs (start st)) in
  let p := snd (main libs (start st)) in
  (forall e ok, In (log_Fatal e, ok) (calls p) ->
     fatal_error libs e /\ status = Exited 1)
  /\ (length (List.filter is_fatal (calls p)) <= 1)%nat
  /\ (status = Exited 1 -> length (List.filter is_fatal (calls p)) = 1%nat).
Proof.
  cbn zeta. unfold resource_attrs. main_cases.
  all: (split; [|split; [cbn; lia | first [intros _; reflexivity | intros; discriminate]]]).
  all: intros err ok Hin; cbn [In] in Hin;
       repeat (destruct Hin as [Hin|Hin]; [try discriminate Hin|]);
       try contradiction; injection Hin as <- _.
  all: (split; [|reflexivity]).
  all: first [ eapply fatal_dial; eassumption
             | eapply fatal_resource; eassumption
             | eapply fatal_trace_exporter; eassumption
             | eapply fatal_metric_exporter; eassumption
             | eapply fatal_listen; eassumption
             | eapply fatal_instrument; cycle 1;
               [ match goal with
                 | E : register _ _ _ _ _ _ = (Err _, _) |- _ => rewrite E; reflexivity
                 end
               | cbn [In instruments]; tauto ] ].
Qed.


(** X14: [main] reaches the server loop exactly when none of its calls
    failed, and then it has made these eighteen calls, in this order:
    connection, resource, trace exporter and provider, propagator, metric
    exporter and provider, tracer, meter, counter, histogram, the sampler
    goroutine, the gauge, the three routes, the start-up line and
    [ListenAndServe] on [:8080]. *)
Theorem serving_means_all_started {S} `{Meter S} (libs : Libs) (st : S) :
  let status := fst (main libs (start st)) in
  let p := snd (main libs (start st)) in
  (status = Serving <-> forallb snd (calls p) = true)
  /\ (status = Serving ->
      exists conn res traceExporter metricExporter,
        dial libs collectorURL = Ok conn
        /\ new_resource libs resource_attrs = Ok res
        /\ new_trace_exporter libs conn = Ok traceExporter
        /\ new_metric_exporter libs conn = Ok metricExporter
        /\ listen libs ":8080" = None
        /\ calls p
           = map (fun c => (c, true))
                 (startup_calls conn res traceExporter metricExporter)).
Proof.
  cbn zeta. unfold resource_attrs. main_cases.
  all: (split; [split; intros Hs; first [discriminate Hs | reflexivity]|]).
  all: intros Hs; try discriminate Hs.
  do 4 eexists. repeat split; first [reflexivity | eassumption].
Qed.


(** X16: over the registry of the specification, when the three names
    [main] registers are free, none of its registrations fails: [main]
    reaches the server loop exactly when the connection, the resource, the
    two exporters and the listener succeed, and the registry then holds the
    three new identities and no new callback. *)
Theorem main_registers_instruments (libs : Libs) (st : Registry) :
  (forall key, In key instrument_keys -> key ∉ registered st) ->
  let status := fst (main libs (start st)) in
  let p := snd (main libs (start st)) in
  (forall kind name ok, In (meter_register kind name, ok) (calls p) -> ok = true)
  /\ (status = Serving
      <-> (exists conn, dial libs collectorURL = Ok conn
                        /\ is_ok (new_trace_exporter libs conn) = true
                        /\ is_ok (new_metric_exporter libs conn) = true)
          /\ is_ok (new_resource libs resource_attrs) = true
          /\ listen libs ":8080" = None)
  /\ (status = Serving ->
      registered (meter_state p) = list_to_set instrument_keys ∪ registered st
      /\ callbacks (meter_state p) = callbacks st).
Proof.
  intros Hfree.
  assert (H1 := Hfree _ (or_introl eq_refl)).
  assert (H2 := Hfree _ (or_intror (or_introl eq_refl))).
  assert (H3 := Hfree _ (or_intror (or_intror (or_introl eq_refl)))).
  clear Hfree. cbn zeta. unfold resource_attrs.
  unfold main, initGrpcConn, initTraceProvider, initMeterProvider, check, lib,
    meter_new, call, log_Fatal_, main_bind, main_ret, start.
  repeat first
    [ progress (cbn [register SpecMeter meter_state calls app is_ok fst snd]);
      rewrite Registry_register_free by (cbn [registered]; set_solver)
    | main_step ].
  main_simpl.
  all: (split; [|split]).
  all: try (intros xkind xname xok Hin; cbn [In] in Hin;
            repeat (destruct Hin as [Hin|Hin]; [try discriminate Hin|]);
            first [contradiction | congruence]).
  all: try (intros Hs; discriminate Hs).
  all: try (split;
            [ intros Hs; discriminate Hs
            | intros ((xconn & Hd & Ht & Hm) & Hr & Hl);
              first [ discriminate Hd | discriminate Hr | discriminate Hl
                    | injection Hd as <-;
                      repeat match goal with
                             | E : _ = Err _ |- _ => rewrite E in *
                             end;
                      cbn [is_ok] in *; discriminate ] ]).
  - split; [intros _|reflexivity].
    split; [|split; reflexivity].
    eexists. split; [reflexivity|].
    repeat match goal with E : _ = Ok _ |- _ => rewrite E end.
    split; reflexivity.
  - intros _. cbn [registered callbacks instrument_keys list_to_set].
    rewrite ?app_nil_r. split; [set_solver | reflexivity].
Qed.

(** The theorem over the empty registry, with libraries that succeed. *)
Lemma main_registers_instruments_witness :
  let p := snd (main healthy (start empty_registry)) in
  fst (main healthy (start empty_registry)) = Serving
  /\ registered (meter_state p) = list_to_set instrument_keys ∪ registered empty_registry
  /\ callbacks (meter_state p) = callbacks empty_registry.
Proof.
  assert (Hfree : forall key, In key instrument_keys -> key ∉ registered empty_registry).
  { intros key _. cbn [registered empty_registry]. set_solver. }
  destruct (main_registers_instruments healthy empty_registry Hfree) as (_ & _ & Hreg).
  assert (Hs : fst (main healthy (start empty_registry)) = Serving)
    by (vm_compute; reflexivity).
  cbn zeta in *. split; [exact Hs|]. apply Hreg, Hs.
Defined.
